(** * A shallow embedding of twitter-archive-parser (src/parser.py)

    Records are the JSON values the parser reads with [json.load]: Python
    dicts become association lists with unique keys, kept in insertion
    order, because the merge functions iterate over them.  Python
    exceptions become an explicit error component of the result.  Strings
    are ASCII strings; floats are not modelled (the record fields the
    claims talk about are integers, strings, lists and dicts). *)

From Stdlib Require Import String Ascii List ZArith Bool Lia.
Import ListNotations.
Open Scope string_scope.
Set Warnings "-register-all".

(** ** JSON values *)

Inductive json : Type :=
  | JNull : json
  | JBool (b : bool) : json
  | JInt (z : Z) : json
  | JStr (s : string) : json
  | JList (l : list json) : json
  | JDict (d : list (string * json)) : json.

Definition dict := list (string * json).

(** [d[k]] when [k in d]; the first binding (Python dicts have one). *)
Fixpoint dict_get (k : string) (d : dict) : option json :=
  match d with
  | [] => None
  | (k', v) :: d' => if String.eqb k k' then Some v else dict_get k d'
  end.

(** [d[k] = v]: an existing key keeps its position, a new key goes last. *)
Fixpoint dict_set (k : string) (v : json) (d : dict) : dict :=
  match d with
  | [] => [(k, v)]
  | (k', v') :: d' =>
      if String.eqb k k' then (k', v) :: d' else (k', v') :: dict_set k v d'
  end.

Definition dict_has (k : string) (d : dict) : bool :=
  match dict_get k d with Some _ => true | None => false end.

Definition is_null (v : json) : bool :=
  match v with JNull => true | _ => false end.

Definition is_dict (v : json) : bool :=
  match v with JDict _ => true | _ => false end.

(** Python's [bool] is a subclass of [int]: [True == 1]. *)
Definition num_value (v : json) : Z :=
  match v with JBool b => if b then 1 else 0 | JInt z => z | _ => 0 end.

Definition is_int (v : json) : bool :=
  match v with JBool _ | JInt _ => true | _ => false end.

(** Python's [==] on JSON values: dicts compare as mappings (order of keys
    does not matter), lists element-wise. *)
Fixpoint py_eq (x y : json) {struct x} : bool :=
  match x, y with
  | JNull, JNull => true
  | JStr s, JStr t => String.eqb s t
  | JList l, JList m =>
      (fix go (l m : list json) : bool :=
         match l, m with
         | [], [] => true
         | u :: l', w :: m' => py_eq u w && go l' m'
         | _, _ => false
         end) l m
  | JDict d, JDict e =>
      Nat.eqb (length d) (length e) &&
      (fix go (d : dict) : bool :=
         match d with
         | [] => true
         | (k, v) :: d' =>
             match dict_get k e with
             | Some w => py_eq v w && go d'
             | None => false
             end
         end) d
  | _, _ => is_int x && is_int y && Z.eqb (num_value x) (num_value y)
  end.

(** ** [parse_as_number] *)

Definition is_digit (c : ascii) : bool :=
  let n := nat_of_ascii c in (Nat.leb 48 n && Nat.leb n 57)%bool.

Fixpoint all_digits (s : string) : bool :=
  match s with
  | EmptyString => true
  | String c s' => is_digit c && all_digits s'
  end.

(** [str.isnumeric()] on ASCII strings: non-empty and only digits. *)
Definition isnumeric (s : string) : bool :=
  match s with EmptyString => false | _ => all_digits s end.

(** [int(s)] on a string of decimal digits. *)
Fixpoint int_of_digits_acc (acc : Z) (s : string) : Z :=
  match s with
  | EmptyString => acc
  | String c s' =>
      int_of_digits_acc (acc * 10 + Z.of_nat (nat_of_ascii c - 48)) s'
  end.

Definition int_of_digits (s : string) : Z := int_of_digits_acc 0 s.

(** [parse_as_number]: [None] is Python's [None]. *)
Definition parse_as_number (v : json) : option json :=
  match v with
  | JStr s => if isnumeric s then Some (JInt (int_of_digits s)) else None
  | JInt z => Some (JInt z)
  | JBool b => Some (JBool b)
  | _ => None
  end.

(** [x == y] on two results of [parse_as_number]; [None == None]. *)
Definition opt_py_eq (x y : option json) : bool :=
  match x, y with
  | None, None => true
  | Some u, Some w => py_eq u w
  | _, _ => false
  end.

Definition opt_to_json (x : option json) : json :=
  match x with Some v => v | None => JNull end.

(** [max(x, y)] returns its first argument unless the second is larger. *)
Definition py_max (x y : json) : json :=
  if Z.ltb (num_value x) (num_value y) then y else x.

(** ** [equal_ignore_types]

    [None] is the [KeyError] raised by [b[key]] when two dicts of the same
    size have different keys. *)
Fixpoint equal_ignore_types (x y : json) {struct x} : option bool :=
  if py_eq x y then Some true else
  match parse_as_number x, parse_as_number y with
  | Some px, Some py => Some (py_eq px py)
  | _, _ =>
    match x, y with
    | JDict d, JDict e =>
        if negb (Nat.eqb (length d) (length e)) then Some false else
        (fix go (d : dict) : option bool :=
           match d with
           | [] => Some true
           | (k, v) :: d' =>
               match dict_get k e with
               | None => None
               | Some w =>
                   match equal_ignore_types v w with
                   | Some true => go d'
                   | r => r
                   end
               end
           end) d
    | JList l, JList m =>
        if negb (Nat.eqb (length l) (length m)) then Some false else
        (fix go (l m : list json) : option bool :=
           match l, m with
           | u :: l', w :: m' =>
               match equal_ignore_types u w with
               | Some true => go l' m'
               | r => r
               end
           | _, _ => Some true
           end) l m
    | _, _ => Some false
    end
  end.

(** ** Exceptions raised while merging *)

Inductive exn : Type :=
  | Conflict (path : list string) (va vb : json)
  | TypeError
  | KeyError.

(** [has_path(item, ['id_str'])] *)
Definition has_id_str (v : json) : bool :=
  match v with
  | JDict d => match dict_get "id_str" d with Some w => negb (is_null w) | None => false end
  | _ => false
  end.

Definition id_str_of (v : json) : json :=
  match v with JDict d => opt_to_json (dict_get "id_str" d) | _ => JNull end.

(** ** [merge_lists(a, b, ignore_types=True)]

    [md ia ib] is [merge_dicts(item_a, item_b)], which mutates [item_a] in
    place: the list keeps the merged item at the same position.  The inner
    loop over [a] returns the updated list, whether [item_b] was found, and
    the exception that stopped it, if any. *)
Section MergeLists.
Variable md : json -> json -> json * option exn.

Fixpoint scan_a (ib : json) (la : list json) : list json * bool * option exn :=
  match la with
  | [] => ([], false, None)
  | ia :: r =>
      match equal_ignore_types ia ib with
      | None => (ia :: r, false, Some KeyError)
      | Some true => (ia :: r, true, None)           (* break *)
      | Some false =>
          if is_dict ia && is_dict ib && has_id_str ia && has_id_str ib
             && py_eq (id_str_of ia) (id_str_of ib) then
            let (ia', e) := md ia ib in
            match e with
            | Some _ => (ia' :: r, true, e)
            | None => let '(r', _, e') := scan_a ib r in (ia' :: r', true, e')
            end
          else
            let '(r', found, e') := scan_a ib r in (ia :: r', found, e')
      end
  end.

Fixpoint merge_lists (la lb : list json) : list json * option exn :=
  match lb with
  | [] => (la, None)
  | ib :: lb' =>
      let '(la', found, e) := scan_a ib la in
      match e with
      | Some _ => (la', e)
      | None => merge_lists (if found then la' else la' ++ [ib]) lb'
      end
  end.
End MergeLists.

(** ** [merge_dicts(a, b, path)] *)

Definition ends_with (suffix s : string) : bool :=
  let n := String.length s in
  let m := String.length suffix in
  Nat.leb m n && String.eqb (substring (n - m) m s) suffix.

Definition is_volatile (k : string) : bool :=
  existsb (String.eqb k) ["possibly_sensitive"; "protected"; "monetizable"].

(** The branches after the dict and list cases, for [a[key]] = [va] and
    [b[key]] = [vb]. *)
Definition merge_scalar (path : list string) (k : string) (va vb : json) (a : dict)
  : dict * option exn :=
  if py_eq va vb then (a, None)
  else if ends_with "_count" k then
    match parse_as_number va, parse_as_number vb with
    | Some x, Some y => (dict_set k (py_max x y) a, None)
    | _, _ => (a, Some TypeError)   (* max() with a None argument *)
    end
  else if is_volatile k then (a, None)
  else if opt_py_eq (parse_as_number va) (parse_as_number vb) then
    (dict_set k (opt_to_json (parse_as_number va)) a, None)
  else if is_null va && negb (is_null vb) then (dict_set k vb a, None)
  else if negb (is_null va) && is_null vb then (a, None)
  else (a, Some (Conflict (path ++ [k])%list va vb)).

(** One iteration of [for key in b]; [rec] is [merge_dicts]. *)
Definition merge_entry (rec : list string -> dict -> json -> dict * option exn)
    (path : list string) (k : string) (vb : json) (a : dict) : dict * option exn :=
  match dict_get k a with
  | None => (dict_set k vb a, None)
  | Some va =>
      match va, vb with
      | JDict da, JDict _ =>
          let (da', e) := rec (path ++ [k])%list da vb in (dict_set k (JDict da') a, e)
      | JList la, JList lb =>
          let (la', e) :=
            merge_lists
              (fun ia ib => match ia with
                            | JDict d => let (d', e) := rec [] d ib in (JDict d', e)
                            | _ => (ia, None)
                            end) la lb in
          (dict_set k (JList la') a, e)
      | _, _ => merge_scalar path k va vb a
      end
  end.

(** The loop over the keys of [b]; an exception stops it, and [a] keeps
    the updates made so far (it is mutated in place). *)
Fixpoint dict_loop (step : string -> json -> dict -> dict * option exn)
    (a : dict) (kvs : dict) : dict * option exn :=
  match kvs with
  | [] => (a, None)
  | (k, vb) :: rest =>
      let (a', e) := step k vb a in
      match e with
      | Some _ => (a', e)
      | None => dict_loop step a' rest
      end
  end.

(** [merge_dicts(a, b, path)] for a dict [b]; returns [a] as it stands
    when the function returns or raises, and the exception raised. *)
Fixpoint merge_dicts (path : list string) (a : dict) (b : json) {struct b}
  : dict * option exn :=
  match b with
  | JDict kvs => dict_loop (merge_entry merge_dicts path) a kvs
  | _ => (a, None)   (* only ever called with a dict [b] *)
  end.

Definition is_list (v : json) : bool :=
  match v with JList _ => true | _ => false end.



(** ** The canonical tweet store and the extended user data

    Both are Python dicts from id strings to records.  [None] as a result
    is an exception that propagates out of the function. *)

(** [add_known_tweet(known_tweets, tweet_id, new_tweet)]; [new_tweet] is a
    dict or [None].  A failed merge is caught, but [merge_dicts] has
    already mutated the stored record in place. *)
Definition add_known_tweet (known_tweets : dict) (tweet_id : string)
    (new_tweet : option dict) : option dict :=
  match new_tweet with
  | Some nt =>
      match dict_get tweet_id known_tweets with
      | Some old =>
          if py_eq old (JDict nt) then Some known_tweets
          else
            match old with
            | JDict d =>
                let (d', _) := merge_dicts [] d (JDict nt) in
                Some (dict_set tweet_id (JDict d') known_tweets)
            | _ => Some known_tweets   (* merge_dicts fails before any write; caught *)
            end
      | None => Some (dict_set tweet_id (JDict nt) known_tweets)
      end
  | None =>
      match dict_get tweet_id known_tweets with
      | Some (JDict d) =>
          Some (dict_set tweet_id (JDict (dict_set "api_returned_null" (JBool true) d))
                  known_tweets)
      | Some _ => None   (* item assignment on a non-dict: TypeError *)
      | None =>
          Some (dict_set tweet_id
                  (JDict [("id", JStr tweet_id); ("id_str", JStr tweet_id);
                          ("api_returned_null", JBool true)]) known_tweets)
      end
  end.

(** The loop of [lookup_users] that stores the retrieved user records in
    [extended_user_data].  [extended_user_data[user_id] =
    merge_dicts(old_user_info, user_info)] assigns the object that
    [merge_dicts] mutates in place, so after a caught exception the entry
    holds the partly merged record as well. *)
Fixpoint update_extended_user_data (extended_user_data : dict)
    (retrieved_users : list (string * dict)) : dict :=
  match retrieved_users with
  | [] => extended_user_data
  | (user_id, user_info) :: rest =>
      let ext' :=
        match dict_get user_id extended_user_data with
        | None => dict_set user_id (JDict user_info) extended_user_data
        | Some old =>
            if py_eq old (JDict user_info) then extended_user_data
            else
              match old with
              | JDict d =>
                  let (d', _) := merge_dicts [] d (JDict user_info) in
                  dict_set user_id (JDict d') extended_user_data
              | _ => extended_user_data
              end
        end in
      update_extended_user_data ext' rest
  end.

(** ** String helpers *)

Fixpoint strip_prefix (p s : string) : option string :=
  match p, s with
  | EmptyString, _ => Some s
  | String c p', String d s' => if Ascii.eqb c d then strip_prefix p' s' else None
  | _, _ => None
  end.

Fixpoint span (f : ascii -> bool) (s : string) : string * string :=
  match s with
  | String c s' =>
      if f c then let (u, v) := span f s' in (String c u, v) else (EmptyString, s)
  | EmptyString => (EmptyString, EmptyString)
  end.

(** [needle in haystack] for strings. *)
Fixpoint contains (needle s : string) : bool :=
  String.prefix needle s ||
  match s with EmptyString => false | String _ s' => contains needle s' end.

Definition newline : ascii := ascii_of_nat 10.

(** [[0-9A-Za-z_]] *)
Definition is_handle_char (c : ascii) : bool :=
  let n := nat_of_ascii c in
  (Nat.leb 48 n && Nat.leb n 57) || (Nat.leb 65 n && Nat.leb n 90)
  || (Nat.leb 97 n && Nat.leb n 122) || Nat.eqb n 95.

(** [re.match] of the pattern [^https://twitter.com/(H)/status/(\d+)$],
    with [H] any run of [[0-9A-Za-z_]], returning group 2.  The [.] of [twitter.com] matches any character but
    a newline, and [$] also matches before a final newline. *)
Definition match_status_url (s : string) : option string :=
  match strip_prefix "https://twitter" s with
  | Some (String c r) =>
      if Ascii.eqb c newline then None else
      match strip_prefix "com/" r with
      | Some r3 =>
          let (_, r4) := span is_handle_char r3 in
          match strip_prefix "/status/" r4 with
          | Some r5 =>
              let (digits, r6) := span is_digit r5 in
              match digits, r6 with
              | EmptyString, _ => None
              | _, EmptyString => Some digits
              | _, String c' EmptyString => if Ascii.eqb c' newline then Some digits else None
              | _, _ => None
              end
          | None => None
          end
      | None => None
      end
  | _ => None
  end.

(** ** Python operations on JSON values used by the reference collector *)

(** [key in v]; [None] is a [TypeError]. *)
Definition py_in (key : string) (v : json) : option bool :=
  match v with
  | JDict d => Some (dict_has key d)
  | JList l => Some (existsb (py_eq (JStr key)) l)
  | JStr s => Some (contains key s)
  | _ => None
  end.

(** [v[key]]; [None] is a [KeyError] or a [TypeError]. *)
Definition py_index (v : json) (key : string) : option json :=
  match v with JDict d => dict_get key d | _ => None end.

(** [for x in v]: a dict yields its keys, a string its characters. *)
Definition py_iter (v : json) : option (list json) :=
  match v with
  | JList l => Some l
  | JDict d => Some (map (fun kv => JStr (fst kv)) d)
  | JStr s => Some (map (fun c => JStr (String c EmptyString)) (list_ascii_of_string s))
  | _ => None
  end.

(** [has_path(root, path)]; [None] is the [TypeError] of [index in root]
    on a number or [None], or of [root[index]] on a list or a string. *)
Fixpoint has_path (root : json) (path : list string) : option bool :=
  match path with
  | [] => Some true
  | k :: p =>
      match py_in k root with
      | None => None
      | Some false => Some false
      | Some true =>
          match py_index root k with
          | Some v => if is_null v then Some false else has_path v p
          | None => None
          end
      end
  end.

Definition unwrap_tweet (tweet : json) : json :=
  match tweet with
  | JDict d => match dict_get "tweet" d with Some t => t | None => tweet end
  | _ => tweet
  end.

(** Membership of a tweet id in [known_tweets] (string keys); lists and
    dicts are unhashable. *)
Definition known_has (known_tweets : dict) (v : json) : option bool :=
  match v with
  | JStr s => Some (dict_has s known_tweets)
  | JList _ | JDict _ => None
  | _ => Some false
  end.

(** [tweet_ids.add(v)] on a set of hashable values. *)
Definition set_add (v : json) (ids : list json) : option (list json) :=
  match v with
  | JList _ | JDict _ => None
  | _ => Some (if existsb (py_eq v) ids then ids else (ids ++ [v])%list)
  end.

(** [str(v)] for the scalar values an [id] field holds. *)
Fixpoint digits_of_pos (fuel : nat) (p : positive) (acc : string) : string :=
  match fuel with
  | O => acc
  | S f =>
      let q := Z.div (Zpos p) 10 in
      let c := ascii_of_nat (48 + Z.to_nat (Z.modulo (Zpos p) 10)) in
      match q with
      | Zpos p' => digits_of_pos f p' (String c acc)
      | _ => String c acc
      end
  end.

Definition py_str (v : json) : option string :=
  match v with
  | JStr s => Some s
  | JInt 0 => Some "0"
  | JInt (Zpos p) => Some (digits_of_pos (Pos.size_nat p) p EmptyString)
  | JInt (Zneg p) => Some (String "-" (digits_of_pos (Pos.size_nat p) p EmptyString))
  | JBool true => Some "True"
  | JBool false => Some "False"
  | JNull => Some "None"
  | _ => None   (* str() of a container: not used on ids *)
  end.

(** ** Reference collector: [collect_tweet_references(tweet, known_tweets)] *)

(** The quoted tweets: [for url in tweet['entities']['urls']]. *)
Fixpoint collect_quoted (known_tweets : dict) (urls : list json) (ids : list json)
  : option (list json) :=
  match urls with
  | [] => Some ids
  | url :: rest =>
      match py_in "url" url, py_in "expanded_url" url with
      | Some true, Some true =>
          match py_index url "expanded_url" with
          | Some (JStr expanded_url) =>
              match match_status_url expanded_url with
              | Some quoted_id =>
                  if dict_has quoted_id known_tweets then collect_quoted known_tweets rest ids
                  else
                    match set_add (JStr quoted_id) ids with
                    | Some ids' => collect_quoted known_tweets rest ids'
                    | None => None
                    end
              | None => collect_quoted known_tweets rest ids
              end
          | _ => None   (* re.match on a non-string, or a failed lookup *)
          end
      | Some true, Some false | Some false, _ => collect_quoted known_tweets rest ids
      | _, _ => None
      end
  end.

(** The tweet's own id, as added by the retweet and the media steps. *)
Definition add_own_id (t : dict) (ids : list json) : option (list json) :=
  match dict_get "id_str" t with
  | None => None                                 (* KeyError *)
  | Some JNull =>
      match dict_get "id" t with
      | Some v => if is_null v then Some ids
                  else match py_str v with
                       | Some s => set_add (JStr s) ids
                       | None => None
                       end
      | None => Some ids
      end
  | Some v => set_add v ids
  end.

Definition starts_with_rt (v : json) : option bool :=
  match v with JStr s => Some (String.prefix "RT @" s) | _ => None end.

Definition collect_tweet_references (tweet : json) (known_tweets : dict)
  : option (list json) :=
  match unwrap_tweet tweet with
  | JDict t =>
      let tj := JDict t in
      if negb (dict_has "from_archive" t) then Some [] else
      let step1 :=
        match has_path tj ["entities"; "urls"] with
        | Some true =>
          match py_index tj "entities" with
          | Some ents =>
              match py_index ents "urls" with
              | Some urls =>
                  match py_iter urls with
                  | Some l => collect_quoted known_tweets l []
                  | None => None
                  end
              | None => None
              end
          | None => None
          end
        | Some false => Some []
        | None => None
        end in
      match step1 with None => None | Some ids1 =>
      let step2 :=
        match has_path tj ["in_reply_to_status_id_str"] with
        | Some true =>
          match dict_get "in_reply_to_status_id_str" t with
          | Some prev =>
              match known_has known_tweets prev with
              | Some true => Some ids1
              | Some false => set_add prev ids1
              | None => None
              end
          | None => None
          end
        | Some false => Some ids1
        | None => None
        end in
      match step2 with None => None | Some ids2 =>
      let step3 :=
        if negb (dict_has "from_api" t) && dict_has "full_text" t then
          match starts_with_rt (opt_to_json (dict_get "full_text" t)) with
          | Some true => add_own_id t ids2
          | Some false => Some ids2
          | None => None                             (* AttributeError *)
          end
        else Some ids2 in
      match step3 with None => None | Some ids3 =>
      let step4 :=
        if dict_has "download_with_alt_text" t then Some ids3 else
        match has_path tj ["entities"; "media"] with
        | Some true => add_own_id t ids3
        | Some false => Some ids3
        | None => None
        end in
      match step4 with None => None | Some ids4 =>
      if existsb is_null ids4 then None else Some ids4
      end end end end
  | _ => None
  end.

(** ** The list of ids [download_tweets] passes on to the download loop *)

Inductive availability := CompletelyNew | ApiReturnedNull | CanBeExtended.

(** The classification of one id; [None] is an exception. *)
Definition classify_tweet_id (known_tweets : dict) (tweet_id : json) : option availability :=
  match tweet_id with
  | JStr s =>
      match dict_get s known_tweets with
      | None => Some CompletelyNew
      | Some JNull => Some CompletelyNew
      | Some known_tweet =>
          match py_in "api_returned_null" known_tweet with
          | Some true =>
              match py_index known_tweet "api_returned_null" with
              | Some (JBool true) => Some ApiReturnedNull
              | Some _ => Some CanBeExtended
              | None => None
              end
          | Some false => Some CanBeExtended
          | None => None
          end
      end
  | _ => Some CompletelyNew   (* not a key of the string-keyed store *)
  end.

Fixpoint split_by_availability (known_tweets : dict) (ids : list json)
  : option (list json * list json * list json) :=
  match ids with
  | [] => Some ([], [], [])
  | i :: rest =>
      match classify_tweet_id known_tweets i, split_by_availability known_tweets rest with
      | Some c, Some (n, r, x) =>
          Some (match c with
                | CompletelyNew => (i :: n, r, x)
                | ApiReturnedNull => (n, i :: r, x)
                | CanBeExtended => (n, r, i :: x)
                end)
      | _, _ => None
      end
  end.

(** [tweet_ids_to_download = completely_new + can_be_extended] *)
Definition tweet_ids_to_download_filtered (known_tweets : dict) (ids : list json)
  : option (list json) :=
  match ids with
  | [] => Some []
  | _ =>
      match split_by_availability known_tweets ids with
      | Some (n, _, x) => Some (n ++ x)%list
      | None => None
      end
  end.

(** ** Rendering: the quote recursion of [convert_tweet]

    [convert_tweet] raises [QuoteRecursionDepthError] when [depth >= 5],
    [EmptyTweetFullTextError] when [full_text] is missing or [None], and
    otherwise builds the egg; [convert_tweet_to_html] renders the quoted
    tweet found in [known_tweets] at [depth + 1] and turns any exception
    into an inline notice.  The model keeps that control flow and the
    rendered body and quote of each tweet; the failures of the parts it
    does not model (date parsing, user metadata, media, the retweet
    header) are given by [other_failure] ([true]: one of them raises), applied to the unwrapped tweet
    before the quoted tweet is rendered, as in the source. *)

Inductive conv_error := QuoteRecursionDepthError | EmptyTweetFullTextError | OtherError.

Inductive rendered :=
  | Rendered (full_text : string) (quote : option (conv_error + rendered)).

(** [egg['inner_tweet']]: the last URL entity whose [expanded_url] is a
    tweet URL of a known tweet; [None] is an exception. *)
Fixpoint find_inner_tweet (known_tweets : option dict) (urls : list json)
    (inner : option json) : option (option json) :=
  match urls with
  | [] => Some inner
  | url :: rest =>
      match py_in "url" url, py_in "expanded_url" url with
      | Some true, Some true =>
          match py_index url "display_url", py_index url "expanded_url" with
          | Some _, Some (JStr expanded_url) =>
              match match_status_url expanded_url, known_tweets with
              | Some quoted_id, Some kt =>
                  match dict_get quoted_id kt with
                  | Some q => find_inner_tweet known_tweets rest (Some q)
                  | None => find_inner_tweet known_tweets rest inner
                  end
              | _, _ => find_inner_tweet known_tweets rest inner
              end
          | _, _ => None
          end
      | Some true, Some false | Some false, _ => find_inner_tweet known_tweets rest inner
      | _, _ => None
      end
  end.

Section ConvertTweet.
Variable other_failure : json -> bool.
Variable known_tweets : option dict.

(** One call of [convert_tweet]; [rec] renders the quoted tweet one level
    deeper. *)
Definition convert_tweet_body (rec : json -> conv_error + rendered)
    (tweet0 : json) (depth : nat) : conv_error + rendered :=
  let tweet := unwrap_tweet tweet0 in
  if Nat.leb 5 depth then inl QuoteRecursionDepthError else
  match tweet with
  | JDict t =>
      match dict_get "full_text" t with
      | None | Some JNull => inl EmptyTweetFullTextError
      | Some _ =>
          (* unwrap retweets *)
          match has_path tweet ["retweeted_status"] with
          | None => inl OtherError
          | Some is_retweet =>
          let tw := if is_retweet
                    then opt_to_json (dict_get "retweeted_status" t) else tweet in
          if other_failure tw then inl OtherError else
              match py_index tw "full_text" with
              | Some (JStr full_text) =>
                  let inner :=
                    match has_path tw ["entities"; "urls"] with
                    | Some true =>
                      match py_index tw "entities" with
                      | Some ents =>
                          match py_index ents "urls" with
                          | Some urls =>
                              match py_iter urls with
                              | Some l => find_inner_tweet known_tweets l None
                              | None => None
                              end
                          | None => None
                          end
                      | None => None
                      end
                    | Some false => Some None
                    | None => None
                    end in
                  match inner with
                  | None => inl OtherError
                  | Some inner_tweet =>
                      match inner_tweet with
                      | Some it =>
                          if is_null it then inr (Rendered full_text None)
                          else
                            (* try: convert_tweet(inner_tweet, ..., depth=depth+1)
                               except Exception: notice *)
                            inr (Rendered full_text (Some (rec it)))
                      | None => inr (Rendered full_text None)
                      end
                  end
              | _ => inl OtherError
              end
          end
      end
  | _ => inl OtherError   (* [in] on a non-dict *)
  end.

Fixpoint convert_tweet_fuel (fuel : nat) (tweet : json) (depth : nat) : conv_error + rendered :=
  convert_tweet_body
    (fun inner => match fuel with
                  | O => inl QuoteRecursionDepthError
                  | S f => convert_tweet_fuel f inner (S depth)
                  end) tweet depth.

(** [convert_tweet(tweet, known_tweets, ..., depth)]: the recursion stops
    at depth 5, so [5 - depth] levels of fuel are enough (see
    [convert_tweet_unfold]). *)
Definition convert_tweet (tweet : json) (depth : nat) : conv_error + rendered :=
  convert_tweet_fuel (5 - depth) tweet depth.

End ConvertTweet.

(** A chain of [n] tweets, tweet [i] quoting tweet [i + 1]. *)
Definition id_of_nat (i : nat) : string :=
  match py_str (JInt (Z.of_nat i)) with Some s => s | None => EmptyString end.

Definition chain_tweet (n i : nat) : json :=
  JDict [("id_str", JStr (id_of_nat i)); ("full_text", JStr "t");
         ("entities", JDict [("urls", JList
            (if Nat.ltb i n then
               [JDict [("url", JStr "https://t.co/q");
                       ("expanded_url", JStr ("https://twitter.com/h/status/" ++ id_of_nat (S i)));
                       ("display_url", JStr "twitter.com/h")]]
             else []))])].

Definition chain_store (n : nat) : dict :=
  map (fun i => (id_of_nat i, chain_tweet n i)) (seq 1 n).

(** [k + 1] nested renderings, the innermost with quote [tail]. *)
Fixpoint quoted_chain (k : nat) (tail : option (conv_error + rendered)) : rendered :=
  match k with
  | O => Rendered "t" tail
  | S k' => Rendered "t" (Some (inr (quoted_chain k' tail)))
  end.

(** ** Pagination of direct-message conversations *)

Section Chunks.
Local Open Scope list_scope.
Variable A : Type.

(** [chunks(lst, n)]: [lst[i:i + n] for i in range(0, len(lst), n)]. *)
Definition chunks (lst : list A) (n : nat) : list (list A) :=
  map (fun j => firstn n (skipn (j * n) lst)) (seq 0 ((length lst + n - 1) / n)).

(** One output file of a conversation: the part number passed as
    [index] to [create_path_for_file_output_dms] (none for an unsplit
    conversation) and the messages written to it. *)
Record dm_file := { dm_index : option nat; dm_messages : list A }.

(** The files [parse_direct_messages] writes for one conversation, whose
    sorted messages are [messages]. *)
Definition conversation_files (messages : list A) : list dm_file :=
  if Nat.ltb 1000 (length messages) then
    map (fun '(chunk_index, chunk) => {| dm_index := Some (chunk_index + 1); dm_messages := chunk |})
        (combine (seq 0 (length (chunks messages 1000))) (chunks messages 1000))
  else [{| dm_index := None; dm_messages := messages |}].

End Chunks.

(** ** [escape_markdown]

    The text is taken as its UTF-8 bytes.  Every byte of a non-ASCII
    character is at least 128, so it is neither a metacharacter nor a line
    break and passes through unchanged, as the Python loop over code points
    leaves the character unchanged. *)

Definition characters_to_escape : string := "\_*[]()~`>#+-=|{}.!".

(** What one input character becomes. *)
Definition escape_char (char : ascii) : string :=
  if contains (String char EmptyString) characters_to_escape then
    String "\" (String char EmptyString)          (* add backslash before control char *)
  else if Ascii.eqb char newline then
    "  " ++ String char EmptyString               (* add double space before line break *)
  else String char EmptyString.

(** [for char in input_text: output_text = output_text + ...] *)
Fixpoint escape_loop (output_text input_text : string) : string :=
  match input_text with
  | EmptyString => output_text
  | String char rest => escape_loop (output_text ++ escape_char char) rest
  end.

Definition escape_markdown (input_text : string) : string := escape_loop EmptyString input_text.

(** The claim's reading, written from its words: the markdown
    metacharacters get a backslash, a line break two spaces before it. *)
Definition markdown_metachar (c : ascii) : bool :=
  existsb (Ascii.eqb c)
    ["\"; "_"; "*"; "["; "]"; "("; ")"; "~"; "`"; ">"; "#"; "+"; "-"; "=";
     "|"; "{"; "}"; "."; "!"]%char.

Fixpoint escape_markdown_spec (s : string) : string :=
  match s with
  | EmptyString => EmptyString
  | String c s' =>
      if markdown_metachar c then String "\" (String c (escape_markdown_spec s'))
      else if Ascii.eqb c newline then String " " (String " " (String c (escape_markdown_spec s')))
      else String c (escape_markdown_spec s')
  end.

(** [true] when every metacharacter of [s] is escaped: read from the
    left, a backslash escapes the metacharacter after it, and no other
    metacharacter occurs. *)
Fixpoint no_unescaped_metachar (s : string) : bool :=
  match s with
  | EmptyString => true
  | String c s' =>
      if Ascii.eqb c "\" then
        match s' with
        | String d s'' => markdown_metachar d && no_unescaped_metachar s''
        | EmptyString => false
        end
      else negb (markdown_metachar c) && no_unescaped_metachar s'
  end.

(** ** [read_json_from_js_file]

    The file is given as the list [f.readlines()] returns: its lines, each
    with its line break.  The result is either the empty dict returned for
    a short file or the text handed to [json.loads]. *)

Inductive js_read_result :=
  | EmptyDictResult
  | JsonLoads (text : string).

Fixpoint join_lines (lines : list string) : string :=
  match lines with [] => EmptyString | l :: ls => l ++ join_lines ls end.

Definition read_json_from_js_file (data : list string) : js_read_result :=
  if Nat.leb (length data) 1 then EmptyDictResult
  else
    let prefix := "[" ++ (if contains "{" (hd EmptyString data) then " {" else EmptyString) in
    JsonLoads (prefix ++ join_lines (tl data)).

(** The claim's reading: the ['{'] is added when the second line opens an
    object, i.e. its first non-blank character is ['{']. *)
Fixpoint opens_object (line : string) : bool :=
  match line with
  | String " " l | String "009" l => opens_object l
  | String "{" _ => true
  | _ => false
  end.

(** ** The video branch of [collect_media_ids_from_tweet] *)

Definition option_bind {A B : Type} (f : A -> option B) (o : option A) : option B :=
  match o with Some a => f a | None => None end.

(** [str.isspace()] on one code point (Python 3.11). *)
Definition py_isspace (c : Z) : bool :=
  existsb (Z.eqb c)
    [9; 10; 11; 12; 13; 28; 29; 30; 31; 32; 133; 160; 5760; 8192; 8193; 8194; 8195;
     8196; 8197; 8198; 8199; 8200; 8201; 8202; 8232; 8233; 8239; 8287; 12288]%Z.

(** A character of a [string], read as a Latin-1 code point. *)
Definition ascii_isspace (c : ascii) : bool := py_isspace (Z.of_nat (nat_of_ascii c)).

Fixpoint lstrip_space (s : string) : string :=
  match s with
  | EmptyString => EmptyString
  | String c s' => if ascii_isspace c then lstrip_space s' else s
  end.

Definition string_rev (s : string) : string :=
  string_of_list_ascii (rev (list_ascii_of_string s)).

(** [s.strip()] *)
Definition py_strip (s : string) : string :=
  string_rev (lstrip_space (string_rev (lstrip_space s))).

(** The digits of a base-10 literal after its sign: decimal digits, each
    ['_'] between two digits; [need_digit] holds at the start and after an
    ['_'].  It returns the value and the number of digits. *)
Fixpoint parse_int_digits (need_digit : bool) (acc cnt : Z) (s : string) : option (Z * Z) :=
  match s with
  | EmptyString => if need_digit then None else Some (acc, cnt)
  | String c s' =>
      if is_digit c then
        parse_int_digits false (acc * 10 + Z.of_nat (nat_of_ascii c - 48)) (cnt + 1) s'
      else if Ascii.eqb c "_" && negb need_digit then parse_int_digits true acc cnt s'
      else None
  end.

(** [sys.get_int_max_str_digits()] at its default. *)
Definition int_max_str_digits : Z := 4300.

(** [int(s)] for a string: blanks around, an optional sign, digits with
    single underscores between them, at most [int_max_str_digits] digits. *)
Definition py_int_of_string (s : string) : option Z :=
  let '(sign, body) :=
    match py_strip s with
    | String "+" b => (1%Z, b)
    | String "-" b => ((-1)%Z, b)
    | b => (1%Z, b)
    end in
  match parse_int_digits true 0 0 body with
  | Some (n, cnt) => if (cnt <=? int_max_str_digits)%Z then Some (sign * n)%Z else None
  | None => None
  end.

(** [int(v)] on a JSON value: ints and bools as themselves, strings as
    [py_int_of_string].  [None] is a [ValueError] or a [TypeError]. *)
Definition py_int (v : json) : option Z :=
  match v with
  | JInt z => Some z
  | JBool b => Some (if b then 1 else 0)%Z
  | JStr s => py_int_of_string s
  | _ => None
  end.

(** [os.path.split(p)[-1]]: the part after the last ['/']. *)
Fixpoint path_basename_acc (acc s : string) : string :=
  match s with
  | EmptyString => acc
  | String "/" s' => path_basename_acc EmptyString s'
  | String c s' => path_basename_acc (acc ++ String c EmptyString) s'
  end.

Definition path_basename (p : string) : string := path_basename_acc EmptyString p.

Fixpoint ends_with_slash (s : string) : bool :=
  match s with
  | EmptyString => false
  | String "/" EmptyString => true
  | String _ s' => ends_with_slash s'
  end.

(** [os.path.join(d, f)] on POSIX. *)
Definition path_join (d f : string) : string :=
  match f with
  | String "/" _ => f
  | _ => match d with
         | EmptyString => f
         | _ => if ends_with_slash d then d ++ f else d ++ "/" ++ f
         end
  end.

(** [name[0:name.find('?')]] when ['?' in name]. *)
Fixpoint strip_query (s : string) : string :=
  match s with
  | EmptyString => EmptyString
  | String "?" _ => EmptyString
  | String c s' => String c (strip_query s')
  end.

(** The loop over [media['video_info']['variants']], from
    [best_quality_url = ''] and [best_bitrate = -1]. *)
Fixpoint select_variant (variants : list json) (best_quality_url : json)
    (best_bitrate : Z) : option (json * Z) :=
  match variants with
  | [] => Some (best_quality_url, best_bitrate)
  | variant :: rest =>
      match py_in "bitrate" variant with
      | None => None
      | Some false => select_variant rest best_quality_url best_bitrate
      | Some true =>
          match option_bind py_int (py_index variant "bitrate") with
          | None => None
          | Some bitrate =>
              if (best_bitrate <? bitrate)%Z then
                match py_index variant "url" with
                | None => None
                | Some url => select_variant rest url bitrate
                end
              else select_variant rest best_quality_url best_bitrate
          end
      end
  end.

(** The warning printed when no variant declares a bitrate.  It is one
    f-string continued over two source lines by a backslash, so the printed
    text is [Warning No URL found for the actual video file in tweet
    '{tweet_id_str}'. '], the 32 spaces of indentation of the second line,
    then ['Media URL: '{original_url}', expands to:
    '{original_expanded_url}'.]; it is kept as the three values it
    formats. *)
Inductive warning :=
| no_video_url_warning (tweet_id_str : string) (original_url : json)
    (original_expanded_url : string).

(** The [elif media_type in ["video", "animated_gif"]] branch for one media
    entity, given the paths [glob] found in the input media folder.  It
    returns the updated [tweet_media], the updated [media_sources] (the
    download worklist, [None] when the caller passed none) and the printed
    warnings; [None] is an exception.  File copying is not modelled. *)
Definition video_media_branch (dir_output_media : string)
    (archive_media_paths : list string) (tweet_id_str : string)
    (original_url : json) (original_expanded_url : string)
    (media_type : json) (media_id : string) (media : json)
    (tweet_media : dict) (media_sources : option dict)
    : option (dict * option dict * list warning) :=
  let '(archive_media_filename, file_output_media) :=
    match rev archive_media_paths with
    | p :: _ => (Some (path_basename p),
                 Some (path_join dir_output_media (path_basename p)))
    | [] => (None, None)
    end in
  let unchanged := Some (tweet_media, media_sources, @nil warning) in
  match py_in "video_info" media with
  | None => None
  | Some false => unchanged
  | Some true =>
    match py_index media "video_info" with
    | None => None
    | Some video_info =>
      match py_in "variants" video_info with
      | None => None
      | Some false => unchanged
      | Some true =>
        match option_bind py_iter (py_index video_info "variants") with
        | None => None
        | Some variants =>
          match select_variant variants (JStr EmptyString) (-1) with
          | None => None
          | Some (best_quality_url, best_bitrate) =>
            if (best_bitrate =? -1)%Z then
              Some (tweet_media, media_sources, [no_video_url_warning tweet_id_str original_url original_expanded_url])
            else
              let names :=
                match archive_media_filename, file_output_media with
                | Some a, Some f => Some (a, f)
                | _, _ =>
                    match best_quality_url with
                    | JStr u =>
                        let a := strip_query (path_basename u) in
                        Some (a, path_join dir_output_media a)
                    | _ => None
                    end
                end in
              match names with
              | None => None
              | Some (a, f) =>
                let media_sources' :=
                  option_map (dict_set (path_join dir_output_media a) best_quality_url)
                    media_sources in
                let entry := JDict [("type", media_type); ("original_url", original_url);
                                    ("best_quality_url", best_quality_url);
                                    ("local_filename", JStr f);
                                    ("alt_text", JStr EmptyString);
                                    ("id", JStr media_id)] in
                Some (dict_set media_id entry tweet_media, media_sources', [])
              end
          end
        end
      end
    end
  end.

(** A variant entry with an optional integer bitrate. *)
Definition mk_variant (v : option Z * string) : json :=
  JDict (("url", JStr (snd v)) ::
         match fst v with Some b => [("bitrate", JInt b)] | None => [] end).

Definition video_media (variants : list (option Z * string)) : json :=
  JDict [("video_info", JDict [("variants", JList (map mk_variant variants))])].

(** A variant dict the loop can read: when it has a ['bitrate'] key,
    [int(variant['bitrate'])] succeeds and its ['url'] is a string. *)
Definition readable_variant (v : json) : Prop :=
  exists d, v = JDict d
    /\ (dict_has "bitrate" d = true ->
        exists b u, option_bind py_int (dict_get "bitrate" d) = Some b
                    /\ dict_get "url" d = Some (JStr u)).

(** The claim's reading: variant [v] declares the bitrate [b] and has the
    url [u]. *)
Definition declares (v : json) (b : Z) (u : string) : Prop :=
  exists d, v = JDict d /\ dict_has "bitrate" d = true
    /\ option_bind py_int (dict_get "bitrate" d) = Some b
    /\ dict_get "url" d = Some (JStr u).

(** The claim's reading: [u] is the url of the first variant whose
    declared bitrate [b] is the highest declared one. *)
Definition first_highest (vs : list json) (u : string) (b : Z) : Prop :=
  exists pre v post, vs = (pre ++ v :: post)%list /\ declares v b u
    /\ (forall w b' u', In w pre -> declares w b' u' -> (b' < b)%Z)
    /\ (forall w b' u', In w post -> declares w b' u' -> (b' <= b)%Z).

(** ** Further code of parser.py and user_id_parser.py *)

(** The tweet's own id as [add_own_id] reads it. *)
Definition own_id (t : dict) (i : json) : Prop :=
  dict_get "id_str" t = Some i
  \/ (dict_get "id_str" t = Some JNull
      /\ exists v s, dict_get "id" t = Some v /\ py_str v = Some s /\ i = JStr s).

(** [str(n)] for an int. *)
Definition str_int (n : Z) : string :=
  match py_str (JInt n) with Some s => s | None => EmptyString end.



Fixpoint zeros (k : nat) : string :=
  match k with O => EmptyString | S k' => String "0" (zeros k') end.

(** [f"{n:0w}"]: sign-aware zero padding to width [w]. *)
Definition format_int_width (w : nat) (n : Z) : string :=
  if (n <? 0)%Z then
    let s := str_int (- n) in String "-" (zeros (w - 1 - String.length s) ++ s)
  else
    let s := str_int n in zeros (w - String.length s) ++ s.

(** [PathConfig.create_path_for_file_output_dms]; [dir_output] is
    [paths.dir_output].  [if index:] treats [0] like [None]. *)
Definition create_path_for_file_output_dms (dir_output name : string) (index : option Z)
    (output_format kind : string) : string :=
  let index_suffix :=
    match index with
    | Some i => if (i =? 0)%Z then EmptyString else "-part" ++ format_int_width 3 i
    | None => EmptyString
    end in
  path_join (path_join dir_output kind)
    (kind ++ "-" ++ name ++ index_suffix ++ "." ++ output_format).

(** Code points of a Python [str]. *)
Definition forbidden_chars : list Z :=
  [34; 39; 42; 47; 92; 58; 60; 62; 63; 124; 33; 64; 59; 44; 61; 46; 10; 13; 9]%Z.

(** The loop of [make_conversation_name_safe_for_filename].  Its test
    [char == 0x7F] compares a [str] with an [int] and is always false. *)
Fixpoint make_safe_loop (new_conversation_name : list Z) (conversation_name : list Z) : list Z :=
  match conversation_name with
  | [] => new_conversation_name
  | char :: rest =>
      if existsb (Z.eqb char) forbidden_chars then
        make_safe_loop (new_conversation_name ++ [95%Z]) rest
      else if py_isspace char then
        make_safe_loop (new_conversation_name ++ [95%Z]) rest
      else if (false || ((char <=? 31) && (0 <=? char)))%Z then
        make_safe_loop new_conversation_name rest
      else make_safe_loop (new_conversation_name ++ [char]) rest
  end.

Definition make_conversation_name_safe_for_filename (conversation_name : list Z) : list Z :=
  make_safe_loop [] conversation_name.

Definition safe_char_out (char : Z) : list Z :=
  if existsb (Z.eqb char) forbidden_chars then [95%Z]
  else if py_isspace char then [95%Z]
  else if (false || ((char <=? 31) && (0 <=? char)))%Z then []
  else [char].

Definition safe_ok (c : Z) : bool :=
  negb (existsb (Z.eqb c) forbidden_chars) && negb (py_isspace c)
  && negb ((c <=? 31) && (0 <=? c))%Z.

(** ** [UserData] of parser.py and [collect_user_connections_from_tweet] *)
Record UserData := mkUserData { user_id : string; handle : json }.

(** [UserData(user_id, handle)]: [None] is the [ValueError] on a [None] id or handle. *)
Definition UserData_new (uid : json) (h : json) : option UserData :=
  if is_null uid then None else
  match py_str uid with
  | None => None
  | Some s => if is_null h then None else Some (mkUserData s h)
  end.

(** The [users] dict: string keys, in insertion order. *)
Definition users_t := list (string * UserData).

Definition users_has (k : string) (users : users_t) : bool :=
  existsb (fun kv => String.eqb (fst kv) k) users.

Fixpoint users_set (k : string) (v : UserData) (users : users_t) : users_t :=
  match users with
  | [] => [(k, v)]
  | (k', v') :: rest => if String.eqb k k' then (k, v) :: rest else (k', v') :: users_set k v rest
  end.

(** [users[str(i)] = UserData(user_id=i, handle=h)] unless [str(i)] is a key already. *)
Definition add_connection (i h : json) (users : users_t) : option users_t :=
  match py_str i with
  | None => None
  | Some key =>
      if users_has key users then Some users
      else match UserData_new i h with
           | Some u => Some (users_set key u users)
           | None => None
           end
  end.

Definition add_reply_connection (tweet : dict) (users : users_t) : option users_t :=
  match dict_get "in_reply_to_user_id" tweet, dict_get "in_reply_to_screen_name" tweet with
  | Some reply_to_id, Some screen_name =>
      if is_null screen_name then Some users else
      match py_int reply_to_id with
      | None => None
      | Some n => if (0 <=? n)%Z then add_connection reply_to_id screen_name users else Some users
      end
  | _, _ => Some users
  end.

Definition mention_connection (mention : json) (users : users_t) : option users_t :=
  if is_null mention then Some users else
  match py_in "id" mention with
  | None => None
  | Some false => Some users
  | Some true =>
      match py_in "screen_name" mention with
      | None => None
      | Some false => Some users
      | Some true =>
          match py_index mention "id" with
          | None => None
          | Some mentioned_id =>
              match py_int mentioned_id with
              | None => None
              | Some n =>
                  if (0 <=? n)%Z then
                    match py_index mention "screen_name" with
                    | None => None
                    | Some h => if is_null h then Some users else add_connection mentioned_id h users
                    end
                  else Some users
              end
          end
      end
  end.

Fixpoint mention_connections (mentions : list json) (users : users_t) : option users_t :=
  match mentions with
  | [] => Some users
  | mention :: rest =>
      match mention_connection mention users with
      | Some users' => mention_connections rest users'
      | None => None
      end
  end.

(** [collect_user_connections_from_tweet(tweet, users)]: the final [users],
    [None] when it raises. *)
Definition collect_user_connections_from_tweet (tweet : dict) (users : users_t) : option users_t :=
  match add_reply_connection tweet users with
  | None => None
  | Some users =>
      match dict_get "entities" tweet with
      | None => Some users
      | Some entities =>
          match py_in "user_mentions" entities with
          | None => None
          | Some false => Some users
          | Some true =>
              match py_index entities "user_mentions" with
              | None => None
              | Some um =>
                  if is_null um then Some users else
                  match py_iter um with
                  | None => None
                  | Some ms => mention_connections ms users
                  end
              end
          end
      end
  end.

(** An added entry: a fresh key [str(i)] for an id with [int(i) >= 0]. *)
Definition valid_id_key (k : string) : Prop :=
  exists i n, py_int i = Some n /\ (0 <= n)%Z /\ py_str i = Some k.

Fixpoint fresh_entries (users added : users_t) : Prop :=
  match added with
  | [] => True
  | (k, u) :: rest =>
      users_has k users = false /\ user_id u = k /\ handle u <> JNull /\ valid_id_key k
      /\ fresh_entries (users ++ [(k, u)])%list rest
  end.

Definition grows (users users' : users_t) : Prop :=
  exists added, users' = (users ++ added)%list /\ fresh_entries users added.

(** ** [collect_user_ids_from_direct_messages] *)
(** [s.split(sep)] for a one-character separator. *)
Fixpoint py_split (sep : ascii) (s : string) : list string :=
  match s with
  | EmptyString => [EmptyString]
  | String c rest =>
      let parts := py_split sep rest in
      if Ascii.eqb c sep then EmptyString :: parts
      else match parts with
           | p :: ps => String c p :: ps
           | [] => [String c EmptyString]
           end
  end.

Definition dm_conversation_ids (conversation : json) (dms_user_ids : list json) : option (list json) :=
  match py_in "dmConversation" conversation with
  | None => None
  | Some false => Some dms_user_ids
  | Some true =>
      match option_bind (py_in "conversationId") (py_index conversation "dmConversation") with
      | None => None
      | Some false => Some dms_user_ids
      | Some true =>
          match option_bind (fun dm_conversation => py_index dm_conversation "conversationId")
                  (py_index conversation "dmConversation") with
          | Some (JStr conversation_id) =>
              match py_split "-" conversation_id with
              | [user1_id; user2_id] =>
                  option_bind (set_add (JStr user2_id)) (set_add (JStr user1_id) dms_user_ids)
              | _ => None   (* ValueError: the unpacking needs exactly two parts *)
              end
          | _ => None
          end
      end
  end.

Fixpoint dm_conversations_loop (conversations : list json) (dms_user_ids : list json) : option (list json) :=
  match conversations with
  | [] => Some dms_user_ids
  | conversation :: rest =>
      match dm_conversation_ids conversation dms_user_ids with
      | Some ids => dm_conversations_loop rest ids
      | None => None
      end
  end.

(** [collect_user_ids_from_direct_messages(paths)] after the file is read:
    the ids in the order the set received them, [None] when it raises. *)
Definition collect_user_ids_from_direct_messages (dms_json : json) : option (list json) :=
  match py_iter dms_json with
  | Some conversations => dm_conversations_loop conversations []
  | None => None
  end.

Fixpoint count_char (c : ascii) (s : string) : nat :=
  match s with
  | EmptyString => O
  | String d rest => (if Ascii.eqb d c then 1 else 0) + count_char c rest
  end.

(** The conversation id of an archive entry [{"dmConversation": {"conversationId": s, ...}}]. *)
Definition archive_conversation_id (conversation : json) : option string :=
  match conversation with
  | JDict c =>
      match dict_get "dmConversation" c with
      | Some (JDict d) =>
          match dict_get "conversationId" d with Some (JStr s) => Some s | _ => None end
      | _ => None
      end
  | _ => None
  end.

(** ** user_id_parser.py: the mentions of [parse_user_ids_from_archive] *)
Module UserIdParser.

(** The [UserData] dataclass of user_id_parser.py; [JNull] is [None]. *)
Record UserData := mkUserData {
  id : json; link : json; handle : json; display_name : json; bio : json; avatar_path : json }.

(** [self.users]: keys compared with [==] (ints and bools hash alike, as
    they compare); lists and dicts are unhashable. *)
Definition users_t := list (json * UserData).

Definition is_hashable (v : json) : bool :=
  match v with JList _ | JDict _ => false | _ => true end.

Fixpoint users_get (k : json) (users : users_t) : option UserData :=
  match users with
  | [] => None
  | (k', u) :: rest => if py_eq k' k then Some u else users_get k rest
  end.

Fixpoint users_update (k : json) (f : UserData -> UserData) (users : users_t) : users_t :=
  match users with
  | [] => []
  | (k', u) :: rest => if py_eq k' k then (k', f u) :: rest else (k', u) :: users_update k f rest
  end.

(** [self.users, count_new, count_name_added, count_skip_duplicates] *)
Definition state := (users_t * nat * nat * nat)%type.

(** One pass of [for mention in tweet['entities']['user_mentions']]. *)
Definition mention_step (mention : json) (st : state) : option state :=
  let '(users, count_new, count_name_added, count_skip_duplicates) := st in
  match py_index mention "id" with
  | None => None
  | Some new_user_id =>
      match py_index mention "name" with
      | None => None
      | Some new_user_display_name =>
          match py_index mention "screen_name" with
          | None => None
          | Some new_user_handle =>
              if negb (is_hashable new_user_id) then None else
              match users_get new_user_id users with
              | Some u =>
                  if is_null (handle u) then
                    Some (users_update new_user_id
                            (fun u => {| id := id u; link := link u; handle := new_user_handle;
                                         display_name := new_user_display_name; bio := bio u;
                                         avatar_path := avatar_path u |}) users,
                          count_new, S count_name_added, count_skip_duplicates)
                  else Some (users, count_new, count_name_added, S count_skip_duplicates)
              | None =>
                  Some ((users ++ [(new_user_id,
                                    {| id := new_user_id; link := JNull; handle := new_user_handle;
                                       display_name := new_user_display_name; bio := JNull;
                                       avatar_path := JNull |})])%list,
                        S count_new, count_name_added, count_skip_duplicates)
              end
          end
      end
  end.

Fixpoint mentions_loop (mentions : list json) (st : state) : option state :=
  match mentions with
  | [] => Some st
  | mention :: rest =>
      match mention_step mention st with
      | Some st' => mentions_loop rest st'
      | None => None
      end
  end.

End UserIdParser.

(** ** [add_user_metadata_to_egg] *)
(** [s.replace(old, new)] for a non-empty [old]: occurrences replaced from
    the left, without overlap; [skip] counts the characters of a replaced
    occurrence still to pass over. *)
Fixpoint replace_loop (old new : string) (skip : nat) (s : string) : string :=
  match s with
  | EmptyString => EmptyString
  | String c rest =>
      match skip with
      | S k => replace_loop old new k rest
      | O => if String.prefix old s then new ++ replace_loop old new (String.length old - 1) rest
             else String c (replace_loop old new O rest)
      end
  end.

Definition py_replace (old new s : string) : string := replace_loop old new O s.

Fixpoint users_get (k : string) (users : users_t) : option UserData :=
  match users with
  | [] => None
  | (k', u) :: rest => if String.eqb k' k then Some u else users_get k rest
  end.

(** [add_user_metadata_to_egg(egg, users, extended_user_data, suffix)]: the
    returned egg, [None] when it raises ([KeyError], [TypeError],
    [AttributeError]); [str()] of a list or a dict inside an f-string is not
    modelled and gives [None] as well. *)
Definition add_user_metadata_to_egg (egg : dict) (users : users_t) (extended_user_data : dict)
    (profile_image_size_suffix : string) : option dict :=
  match dict_get "user_id" egg with
  | None => None
  | Some egg_user_id =>
      let fields :=
        match known_has extended_user_data egg_user_id with
        | None => None
        | Some true =>
            match egg_user_id with
            | JStr uid =>
                match dict_get uid extended_user_data with
                | None => None
                | Some user =>
                    match py_index user "screen_name", py_index user "description",
                          py_index user "name", py_index user "id_str" with
                    | Some user_screen_name, Some user_description, Some user_name, Some user_id_str =>
                        let profile_image_url_https :=
                          match py_in "profile_image_url_https" user with
                          | None => None
                          | Some true =>
                              match py_index user "profile_image_url_https" with
                              | Some JNull => Some JNull
                              | Some (JStr u) =>
                                  Some (JStr (py_replace "_normal" profile_image_size_suffix u))
                              | _ => None
                              end
                          | Some false => Some JNull
                          end in
                        match profile_image_url_https, py_str user_screen_name with
                        | Some p, Some sn =>
                            Some (user_screen_name, user_description, user_name, user_id_str, p,
                                  "https://twitter.com/" ++ sn)
                        | _, _ => None
                        end
                    | _, _, _, _ => None
                    end
                end
            | _ => None
            end
        | Some false =>
            let in_users :=
              match egg_user_id with
              | JStr uid => match users_get uid users with Some u => Some (Some u) | None => Some None end
              | JList _ | JDict _ => None
              | _ => Some None
              end in
            match in_users, py_str egg_user_id with
            | None, _ | _, None => None
            | Some (Some user), Some user_id_str =>
                match py_str (handle user) with
                | Some sn =>
                    Some (handle user, JStr "(user profile not available)",
                          JStr "(unknown / @{user.handle})", JStr user_id_str, JNull,
                          "https://twitter.com/" ++ sn)
                | None => None
                end
            | Some None, Some user_id_str =>
                Some (JStr "unknown_user", JStr "(user profile not available)", JStr "(unknown)",
                      JStr user_id_str, JNull, "https://twitter.com/i/user/" ++ user_id_str)
            end
        end in
      match fields with
      | None => None
      | Some (user_screen_name, user_description, user_name, user_id_str,
              profile_image_url_https, user_profile_url) =>
          Some (dict_set "user_profile_url" (JStr user_profile_url)
                 (dict_set "profile_image_url_https" profile_image_url_https
                  (dict_set "user_id_str" user_id_str
                   (dict_set "user_name" user_name
                    (dict_set "user_description" user_description
                     (dict_set "user_screen_name" user_screen_name egg))))))
      end
  end.

Definition egg_user_fields : list string :=
  ["user_screen_name"; "user_description"; "user_name"; "user_id_str";
   "profile_image_url_https"; "user_profile_url"].

(** The walk of [has_path] along [path]: [Some (Some v)] when every step
    is present and not [None] and [v] is reached, [Some None] when a step
    is missing or [None], and [None] when the walk raises. *)
Fixpoint follow_path (root : json) (path : list string) : option (option json) :=
  match path with
  | [] => Some (Some root)
  | k :: p =>
      match py_in k root with
      | None => None
      | Some false => Some None
      | Some true =>
          match py_index root k with
          | Some v => if is_null v then Some None else follow_path v p
          | None => None
          end
      end
  end.

Definition sample_reply_tweet : json :=
  JDict [("tweet", JDict [("from_archive", JBool true); ("id_str", JStr "10");
                          ("in_reply_to_status_id_str", JStr "9");
                          ("full_text", JStr "RT @x: hi")])].

Definition sample_conversation (conversation_id : string) : json :=
  JDict [("dmConversation", JDict [("conversationId", JStr conversation_id); ("messages", JList [])])].

Definition sample_users : UserIdParser.users_t :=
  [(JStr "1", {| UserIdParser.id := JStr "1"; UserIdParser.link := JStr "https://twitter.com/intent/user?user_id=1";
                 UserIdParser.handle := JNull; UserIdParser.display_name := JNull;
                 UserIdParser.bio := JNull; UserIdParser.avatar_path := JNull |});
   (JStr "2", {| UserIdParser.id := JStr "2"; UserIdParser.link := JNull;
                 UserIdParser.handle := JStr "two"; UserIdParser.display_name := JNull;
                 UserIdParser.bio := JNull; UserIdParser.avatar_path := JNull |})].

Definition sample_mentions : list json :=
  [JDict [("id", JStr "1"); ("name", JStr "One"); ("screen_name", JStr "one")];
   JDict [("id", JStr "2"); ("name", JStr "Two"); ("screen_name", JStr "other")];
   JDict [("id", JStr "3"); ("name", JStr "Three"); ("screen_name", JStr "three")]].

(** * Lemmas and claims *)

Example merge_retweet_count :
  merge_dicts [] [("retweet_count", JInt 3)] (JDict [("retweet_count", JInt 7)])
  = ([("retweet_count", JInt 7)], None).
Proof. reflexivity. Qed.

(** ** Lemmas on dict access *)

Lemma dict_has_get (k : string) (d : dict) (v : json) :
  dict_get k d = Some v -> dict_has k d = true.
Proof. unfold dict_has. now intros ->. Qed.

Lemma dict_get_set_same (k : string) (v : json) (d : dict) :
  dict_get k (dict_set k v d) = Some v.
Proof.
  induction d as [|[k' v'] d IH]; simpl.
  - now rewrite String.eqb_refl.
  - destruct (String.eqb k k') eqn:E; simpl; rewrite ?E; auto.
Qed.

Lemma dict_get_set_other (k k' : string) (v : json) (d : dict) :
  k <> k' -> dict_get k (dict_set k' v d) = dict_get k d.
Proof.
  intros Hne. induction d as [|[k1 v1] d IH]; simpl.
  - apply String.eqb_neq in Hne. now rewrite Hne.
  - destruct (String.eqb k' k1) eqn:E1; simpl.
    + apply String.eqb_eq in E1; subst k1.
      apply String.eqb_neq in Hne. now rewrite Hne.
    + now rewrite IH.
Qed.

Lemma dict_get_in_keys (k : string) (d : dict) (v : json) :
  dict_get k d = Some v -> In k (map fst d).
Proof.
  induction d as [|[k' v'] d IH]; simpl; [discriminate|].
  destruct (String.eqb k k') eqn:E; intros H.
  - left. symmetry. now apply String.eqb_eq.
  - right. auto.
Qed.

(** ** The loop over the keys of [b] touches one key per step *)

Section DictLoop.
Variable step : string -> json -> dict -> dict * option exn.

(** Processing the key [k'] of [b] changes [a] at [k'] only. *)
Hypothesis step_local : forall k' vb a a' e,
  step k' vb a = (a', e) -> forall k, k <> k' -> dict_get k a' = dict_get k a.

Lemma dict_loop_other (k : string) (kvs a : dict) (a' : dict) (e : option exn) :
  ~ In k (map fst kvs) -> dict_loop step a kvs = (a', e) ->
  dict_get k a' = dict_get k a.
Proof.
  revert a. induction kvs as [|[k1 v1] rest IH]; intros a Hnin H; simpl in *.
  - now inversion H.
  - destruct (step k1 v1 a) as [a1 e1] eqn:Es.
    assert (Hk : k <> k1) by (intro; subst; tauto).
    destruct e1.
    + inversion H; subst. eapply step_local; eauto.
    + rewrite (IH a1); [| tauto | exact H]. eapply step_local; eauto.
Qed.

(** If the step at [k] succeeds from every [a] holding [va] at [k] and
    leaves [r] there, a successful loop leaves [r] at [k]. *)
Lemma dict_loop_at (k : string) (va vb r : json) (kvs : dict) :
  NoDup (map fst kvs) -> dict_get k kvs = Some vb ->
  (forall a a' e, dict_get k a = Some va -> step k vb a = (a', e) ->
     e = None /\ dict_get k a' = Some r) ->
  forall a a', dict_get k a = Some va -> dict_loop step a kvs = (a', None) ->
  dict_get k a' = Some r.
Proof.
  intros Hnd Hb Hstep.
  induction kvs as [|[k1 v1] rest IH]; intros a a' Ha H; simpl in *; [discriminate|].
  inversion Hnd as [|? ? Hnin Hnd']; subst.
  destruct (step k1 v1 a) as [a1 e1] eqn:Es.
  destruct (String.eqb k k1) eqn:E.
  - apply String.eqb_eq in E; subst k1. inversion Hb; subst v1.
    destruct (Hstep a a1 e1 Ha Es) as [-> Hr].
    rewrite (dict_loop_other k rest a1 a' None Hnin H). exact Hr.
  - apply String.eqb_neq in E.
    destruct e1; [discriminate|].
    apply (IH Hnd' Hb a1 a'); [| exact H].
    rewrite (step_local _ _ _ _ _ Es k E). exact Ha.
Qed.
End DictLoop.

Lemma merge_entry_local (rec : list string -> dict -> json -> dict * option exn)
    (path : list string) :
  forall k' vb a a' e, merge_entry rec path k' vb a = (a', e) ->
  forall k, k <> k' -> dict_get k a' = dict_get k a.
Proof.
  intros k' vb a a' e H k Hne. unfold merge_entry in H.
  destruct (dict_get k' a) as [va|].
  2:{ inversion H; subst. now apply dict_get_set_other. }
  destruct va, vb;
    try (destruct (rec _ _ _); inversion H; subst; now apply dict_get_set_other);
    try (destruct (merge_lists _ _ _); inversion H; subst; now apply dict_get_set_other);
    unfold merge_scalar in H;
    repeat match goal with
    | H : context [if ?c then _ else _] |- _ => destruct c
    | H : context [match ?c with _ => _ end] |- _ => destruct c
    end; inversion H; subst; auto; now apply dict_get_set_other.
Qed.

(** Outside the dict/dict and list/list cases, one step of the loop is
    [merge_scalar]. *)
Lemma merge_entry_scalar (rec : list string -> dict -> json -> dict * option exn)
    (path : list string) (k : string) (va vb : json) (a : dict) :
  dict_get k a = Some va ->
  is_dict va && is_dict vb = false -> is_list va && is_list vb = false ->
  merge_entry rec path k vb a = merge_scalar path k va vb a.
Proof.
  intros Hk Hd Hl. unfold merge_entry. rewrite Hk.
  destruct va, vb; simpl in Hd, Hl; try discriminate; reflexivity.
Qed.

Lemma py_max_int (x y : Z) : py_max (JInt x) (JInt y) = JInt (Z.max x y).
Proof.
  unfold py_max; simpl. destruct (Z.ltb_spec x y); f_equal; lia.
Qed.

Lemma parse_as_number_int_shape (v : json) (x : Z) :
  parse_as_number v = Some (JInt x) -> is_dict v = false /\ is_list v = false.
Proof. destruct v; simpl; try discriminate; auto. Qed.



Lemma merge_dicts_dict (path : list string) (a kvs : dict) :
  merge_dicts path a (JDict kvs) = dict_loop (merge_entry merge_dicts path) a kvs.
Proof. reflexivity. Qed.

(** ** Claims on [merge_dicts] *)

(** For a key ending in ["_count"] present in both dicts, whose two
    values differ and are each an int or a string of decimal digits, a
    successful [merge_dicts(a, b)] leaves the larger of the two integer
    values at that key. *)
Theorem merge_dicts_count_max (path : list string) (a kvs a' : dict) (k : string)
    (va vb : json) (x y : Z)
    (Hnd : NoDup (map fst kvs))
    (Ha : dict_get k a = Some va) (Hb : dict_get k kvs = Some vb)
    (Hc : ends_with "_count" k = true) (Hne : py_eq va vb = false)
    (Hx : parse_as_number va = Some (JInt x)) (Hy : parse_as_number vb = Some (JInt y))
    (Hm : merge_dicts path a (JDict kvs) = (a', None)) :
  dict_get k a' = Some (JInt (Z.max x y)).
Proof.
  rewrite merge_dicts_dict in Hm.
  refine (dict_loop_at _ (merge_entry_local merge_dicts path) k va vb _ kvs Hnd Hb _ a a' Ha Hm).
  intros a0 a0' e Ha0 Hs.
  destruct (parse_as_number_int_shape va x Hx) as [Hd Hl].
  rewrite (merge_entry_scalar merge_dicts path k va vb a0 Ha0) in Hs
    by (rewrite ?Hd, ?Hl; reflexivity).
  unfold merge_scalar in Hs. rewrite Hne, Hc, Hx, Hy, py_max_int in Hs.
  inversion Hs; subst. split; [reflexivity | apply dict_get_set_same].
Qed.

Lemma is_digit_not_space (c : ascii) : is_digit c = true -> ascii_isspace c = false.
Proof.
  unfold is_digit, ascii_isspace, py_isspace. intros H.
  apply andb_true_iff in H as [H1 H2]. apply Nat.leb_le in H1, H2.
  apply not_true_is_false. intros E. apply existsb_exists in E as (x & Hx & Ex).
  apply Z.eqb_eq in Ex.
  repeat (destruct Hx as [<-|Hx]; [lia|]). destruct Hx.
Qed.

Lemma all_digits_in (s : string) (c : ascii) :
  all_digits s = true -> In c (list_ascii_of_string s) -> is_digit c = true.
Proof.
  induction s as [|c' s IH]; cbn; [tauto|].
  intros H [<-|Hin]; apply andb_true_iff in H as [H1 H2]; auto.
Qed.

Lemma string_rev_involutive (s : string) : string_rev (string_rev s) = s.
Proof.
  unfold string_rev. rewrite list_ascii_of_string_of_list_ascii, rev_involutive.
  apply string_of_list_ascii_of_string.
Qed.

Lemma py_strip_neg_digits (s : string) :
  all_digits s = true -> s <> EmptyString -> py_strip (String "-" s) = String "-" s.
Proof.
  intros Hd Hne. unfold py_strip.
  change (lstrip_space (String "-" s)) with (String "-" s).
  assert (Hr : exists d t, string_rev (String "-" s) = String d t /\ is_digit d = true).
  { unfold string_rev. cbn [list_ascii_of_string rev].
    destruct (rev (list_ascii_of_string s)) as [|d r] eqn:E.
    - exfalso. apply Hne. rewrite <- (string_of_list_ascii_of_string s).
      apply (f_equal (@rev ascii)) in E. rewrite rev_involutive in E. now rewrite E.
    - exists d, (string_of_list_ascii (r ++ ["-"%char])). split; [reflexivity|].
      apply (all_digits_in s d Hd). apply in_rev. rewrite E. now left. }
  destruct Hr as (d & t & Hr & Hdig). rewrite Hr. cbn [lstrip_space].
  rewrite (is_digit_not_space d Hdig). rewrite <- Hr. apply string_rev_involutive.
Qed.

Lemma parse_int_digits_all (s : string) (acc cnt : Z) :
  all_digits s = true ->
  parse_int_digits false acc cnt s = Some (int_of_digits_acc acc s, cnt + Z.of_nat (String.length s))%Z.
Proof.
  revert acc cnt. induction s as [|c s IH]; intros acc cnt H; cbn [parse_int_digits].
  - cbn. f_equal. f_equal. lia.
  - cbn [all_digits] in H. apply andb_true_iff in H as [H1 H2]. rewrite H1, IH by exact H2.
    cbn [int_of_digits_acc String.length]. f_equal. f_equal. lia.
Qed.

(** [int("-" + s)] for a string [s] of at most 4300 decimal digits. *)
Lemma py_int_neg_digits (s : string) :
  all_digits s = true -> s <> EmptyString -> (String.length s <= 4300)%nat ->
  py_int (JStr (String "-" s)) = Some (- int_of_digits s)%Z.
Proof.
  intros Hd Hne Hlen. cbn [py_int]. unfold py_int_of_string.
  rewrite (py_strip_neg_digits s Hd Hne). cbn beta iota.
  destruct s as [|c s']; [contradiction|].
  cbn [all_digits] in Hd. apply andb_true_iff in Hd as [Hc Hs'].
  cbn [parse_int_digits]. rewrite Hc. cbn [negb andb].
  rewrite (parse_int_digits_all s' _ _ Hs').
  cbn [String.length] in Hlen. unfold int_max_str_digits.
  destruct (Z.leb_spec (0 + 1 + Z.of_nat (String.length s')) 4300) as [_|H]; [|lia].
  unfold int_of_digits. cbn [int_of_digits_acc]. f_equal; lia.
Qed.

(** C1: the code diverges from the claim on negative numeric strings.
    Two ints or strings of decimal digits under a ["_count"] key do give
    their maximum.  But [int] reads ["-" ++ s] as [-int(s)] while
    [parse_as_number] returns [None] for it ([str.isnumeric] rejects the
    sign), so [merge_dicts] raises [TypeError] from [max] instead of
    keeping the maximum, and leaves [a] unchanged. *)
Theorem merge_dicts_count_negative_string :
  (forall (path : list string) (a kvs a' : dict) (k : string) (va vb : json) (x y : Z),
     NoDup (map fst kvs) -> dict_get k a = Some va -> dict_get k kvs = Some vb ->
     ends_with "_count" k = true -> py_eq va vb = false ->
     parse_as_number va = Some (JInt x) -> parse_as_number vb = Some (JInt y) ->
     merge_dicts path a (JDict kvs) = (a', None) ->
     dict_get k a' = Some (JInt (Z.max x y)))
  /\ (forall (path : list string) (a : dict) (k s : string) (y : Z),
     ends_with "_count" k = true -> dict_get k a = Some (JStr (String "-" s)) ->
     all_digits s = true -> s <> EmptyString -> (String.length s <= 4300)%nat ->
     py_int (JStr (String "-" s)) = Some (- int_of_digits s)%Z
     /\ parse_as_number (JStr (String "-" s)) = None
     /\ merge_dicts path a (JDict [(k, JInt y)]) = (a, Some TypeError)).
Proof.
  split.
  - intros path a kvs a' k va vb x y Hnd Ha Hb Hc Hne Hx Hy Hm.
    exact (merge_dicts_count_max path a kvs a' k va vb x y Hnd Ha Hb Hc Hne Hx Hy Hm).
  - intros path a k s y Hc Ha Hd Hne Hlen.
    split; [now apply py_int_neg_digits|]. split; [reflexivity|].
    rewrite merge_dicts_dict. cbn [dict_loop].
    rewrite (merge_entry_scalar merge_dicts path k _ (JInt y) a Ha eq_refl eq_refl).
    unfold merge_scalar. rewrite Hc. reflexivity.
Qed.

Lemma merge_dicts_count_negative_string_witness :
  dict_get "retweet_count" (fst (merge_dicts [] [("retweet_count", JStr "3")]
                                   (JDict [("retweet_count", JInt 7)]))) = Some (JInt 7)
  /\ py_int (JStr "-1") = Some (-1)%Z
  /\ merge_dicts [] [("retweet_count", JStr "-1")] (JDict [("retweet_count", JInt 3)])
     = ([("retweet_count", JStr "-1")], Some TypeError).
Proof.
  split.
  - apply (proj1 merge_dicts_count_negative_string [] [("retweet_count", JStr "3")]
             [("retweet_count", JInt 7)] _ "retweet_count" (JStr "3") (JInt 7) 3%Z 7%Z);
      try reflexivity.
    repeat constructor; simpl; tauto.
  - destruct (proj2 merge_dicts_count_negative_string [] [("retweet_count", JStr "-1")]
                "retweet_count" "1" 3%Z eq_refl eq_refl eq_refl ltac:(discriminate) ltac:(cbn; lia))
      as (Hi & _ & Hm).
    split; [exact Hi | exact Hm].
Defined.









Lemma py_eq_refl_scalar (v : json) :
  is_dict v = false -> is_list v = false -> py_eq v v = true.
Proof.
  destruct v; cbn; try discriminate; intros _ _;
    rewrite ?Z.eqb_refl, ?String.eqb_refl; reflexivity.
Qed.











(** C10: in the ["_count"] branch, [merge_dicts] raises [TypeError]
    exactly when one of the two values does not parse as a number; a
    negative numeric string such as ["-1"] never parses. *)
Theorem merge_dicts_count_type_error (path : list string) (a : dict) (k : string)
    (va vb : json)
    (Ha : dict_get k a = Some va) (Hc : ends_with "_count" k = true)
    (Hne : py_eq va vb = false)
    (Hd : is_dict va && is_dict vb = false) (Hl : is_list va && is_list vb = false) :
  (snd (merge_dicts path a (JDict [(k, vb)])) = Some TypeError <->
   parse_as_number va = None \/ parse_as_number vb = None)
  /\ (forall s, parse_as_number (JStr (String "-" s)) = None).
Proof.
  split; [| reflexivity].
  rewrite merge_dicts_dict. simpl.
  rewrite (merge_entry_scalar merge_dicts path k va vb a Ha Hd Hl).
  unfold merge_scalar. rewrite Hne, Hc.
  destruct (parse_as_number va), (parse_as_number vb); simpl;
    split; intros H; try discriminate; auto;
    destruct H as [H|H]; discriminate.
Qed.

Lemma merge_dicts_count_type_error_witness :
  snd (merge_dicts [] [("retweet_count", JStr "-1")] (JDict [("retweet_count", JInt 3)]))
    = Some TypeError.
Proof.
  apply (merge_dicts_count_type_error [] [("retweet_count", JStr "-1")] "retweet_count"
           (JStr "-1") (JInt 3)); try reflexivity.
  left. reflexivity.
Defined.

(** ** Lemmas on the stores *)

Section DictLoopKeep.
Variable step : string -> json -> dict -> dict * option exn.
Hypothesis step_local : forall k' vb a a' e,
  step k' vb a = (a', e) -> forall k, k <> k' -> dict_get k a' = dict_get k a.

(** A value that the step at its own key never changes survives the
    whole loop, whether it ends normally or by an exception. *)
Lemma dict_loop_keep (k : string) (v : json) :
  (forall vb a a' e, dict_get k a = Some v -> step k vb a = (a', e) ->
     dict_get k a' = Some v) ->
  forall kvs a a' e, dict_get k a = Some v -> dict_loop step a kvs = (a', e) ->
  dict_get k a' = Some v.
Proof.
  intros Hstep kvs. induction kvs as [|[k1 v1] rest IH]; intros a a' e Ha H; simpl in H.
  - now inversion H; subst.
  - destruct (step k1 v1 a) as [a1 e1] eqn:Es.
    assert (Ha1 : dict_get k a1 = Some v).
    { destruct (String.eqb k k1) eqn:E.
      - apply String.eqb_eq in E; subst k1. eapply Hstep; eauto.
      - apply String.eqb_neq in E. rewrite (step_local _ _ _ _ _ Es k E). exact Ha. }
    destruct e1; [inversion H; subst; exact Ha1 | eapply IH; eauto].
Qed.
End DictLoopKeep.

Lemma merge_dicts_keeps_api_returned_null (path : list string) (d kvs d' : dict)
    (e : option exn) :
  dict_get "api_returned_null" d = Some (JBool true) ->
  merge_dicts path d (JDict kvs) = (d', e) ->
  dict_get "api_returned_null" d' = Some (JBool true).
Proof.
  rewrite merge_dicts_dict. intros Hd Hm.
  refine (dict_loop_keep _ (merge_entry_local merge_dicts path) _ _ _ kvs d d' e Hd Hm).
  intros vb a a' e' Ha Hs.
  rewrite (merge_entry_scalar merge_dicts path _ (JBool true) vb a Ha) in Hs
    by (destruct vb; reflexivity).
  unfold merge_scalar in Hs.
  destruct (py_eq (JBool true) vb); [inversion Hs; subst; exact Ha|].
  change (ends_with "_count" "api_returned_null") with false in Hs.
  change (is_volatile "api_returned_null") with false in Hs. simpl in Hs.
  destruct (opt_py_eq (Some (JBool true)) (parse_as_number vb)) eqn:Eq.
  - simpl in Eq. rewrite Eq in Hs. inversion Hs; subst. apply dict_get_set_same.
  - simpl in Eq. rewrite Eq in Hs. destruct (is_null vb); inversion Hs; subst; exact Ha.
Qed.

Lemma dict_has_set (s k : string) (v : json) (d : dict) :
  dict_has s d = true -> dict_has s (dict_set k v d) = true.
Proof.
  unfold dict_has. destruct (String.eqb s k) eqn:E.
  - apply String.eqb_eq in E; subst. now rewrite dict_get_set_same.
  - apply String.eqb_neq in E. now rewrite dict_get_set_other.
Qed.

Lemma split_by_availability_class (known_tweets : dict) (ids n r x : list json) :
  split_by_availability known_tweets ids = Some (n, r, x) ->
  (forall i, In i n -> classify_tweet_id known_tweets i = Some CompletelyNew) /\
  (forall i, In i x -> classify_tweet_id known_tweets i = Some CanBeExtended).
Proof.
  revert n r x. induction ids as [|i rest IH]; intros n r x H; simpl in H.
  - inversion H; subst. split; intros ? [].
  - destruct (classify_tweet_id known_tweets i) as [c|] eqn:Ec; [|discriminate].
    destruct (split_by_availability known_tweets rest) as [[[n0 r0] x0]|]; [|discriminate].
    destruct (IH n0 r0 x0 eq_refl) as [Hn Hx].
    destruct c; inversion H; subst; split; intros j Hj;
      try (destruct Hj as [<-|Hj]; [exact Ec|]); auto.
Qed.

(** ** Claims on the stores *)

(** C3 (code bug): a merge that raises a conflict is caught, but the
    record already stored, in the tweet store and in the extended user
    data, has been changed by the part of the merge that ran before the
    conflict: it is not the previously stored record. *)
Theorem failed_merge_changes_stored_record :
  let old_tweet := [("id_str", JStr "1"); ("favorited", JBool true)] in
  let new_tweet := [("id_str", JStr "1"); ("from_api", JBool true); ("favorited", JBool false)] in
  let old_user := [("id_str", JStr "42"); ("screen_name", JStr "a"); ("verified", JBool true)] in
  let new_user := [("id_str", JStr "42"); ("name", JStr "A"); ("verified", JBool false)] in
  snd (merge_dicts [] old_tweet (JDict new_tweet))
    = Some (Conflict ["favorited"] (JBool true) (JBool false))
  /\ add_known_tweet [("1", JDict old_tweet)] "1" (Some new_tweet)
    = Some [("1", JDict (old_tweet ++ [("from_api", JBool true)])%list)]
  /\ snd (merge_dicts [] old_user (JDict new_user))
    = Some (Conflict ["verified"] (JBool true) (JBool false))
  /\ update_extended_user_data [("42", JDict old_user)] [("42", new_user)]
    = [("42", JDict (old_user ++ [("name", JStr "A")])%list)].
Proof. repeat split; reflexivity. Qed.

Lemma existsb_incl (f : json -> bool) (l l' : list json) :
  incl l l' -> existsb f l = true -> existsb f l' = true.
Proof.
  intros Hi H. apply existsb_exists in H as (x & Hx & Hf).
  apply existsb_exists. exists x. auto.
Qed.

Lemma set_add_grows (v : json) (ids ids' : list json) :
  set_add v ids = Some ids' -> incl ids ids' /\ existsb (py_eq v) ids' = true.
Proof.
  unfold set_add. intros H.
  assert (Hv : is_dict v = false /\ is_list v = false) by (destruct v; try discriminate; auto).
  destruct Hv as [Hd Hl].
  assert (H' : Some (if existsb (py_eq v) ids then ids else (ids ++ [v])%list) = Some ids')
    by (destruct v; try discriminate; exact H).
  injection H' as <-. destruct (existsb (py_eq v) ids) eqn:E.
  - split; [apply incl_refl | exact E].
  - split; [intros x Hx; apply in_or_app; now left|].
    rewrite existsb_app. cbn [existsb]. rewrite (py_eq_refl_scalar v Hd Hl).
    now rewrite orb_true_r.
Qed.

Lemma add_own_id_grows (t : dict) (ids ids' : list json) :
  add_own_id t ids = Some ids' -> incl ids ids'.
Proof.
  unfold add_own_id. destruct (dict_get "id_str" t) as [v|]; [|discriminate].
  destruct v; try (intros H; exact (proj1 (set_add_grows _ _ _ H))).
  destruct (dict_get "id" t) as [w|]; [|intros H; injection H as <-; apply incl_refl].
  destruct (is_null w); [intros H; injection H as <-; apply incl_refl|].
  destruct (py_str w); [|discriminate]. intros H. exact (proj1 (set_add_grows _ _ _ H)).
Qed.

Lemma add_own_id_adds (t : dict) (ids ids' : list json) (v : json) :
  dict_get "id_str" t = Some v -> is_null v = false ->
  add_own_id t ids = Some ids' -> existsb (py_eq v) ids' = true.
Proof.
  unfold add_own_id. intros -> Hn.
  destruct v; try discriminate; intros H; exact (proj2 (set_add_grows _ _ _ H)).
Qed.

(** C4 (amended): [add_known_tweet] never removes a record from the store
    and never clears [api_returned_null = True]; [download_tweets] drops
    every id whose stored record has [api_returned_null = True] from the
    ids it downloads.  The reference collector itself does not look at
    [api_returned_null]: for every [from_archive] record with a non-[None]
    [id_str] that is a retweet (no [from_api], [full_text] a string
    starting with ["RT @"]) or has [entities.media] (and no
    [download_with_alt_text]), whenever it returns, the set it returns
    contains that [id_str]. *)
Theorem api_returned_null_kept_and_not_downloaded :
  (forall known_tweets tweet_id new_tweet known' s,
     add_known_tweet known_tweets tweet_id new_tweet = Some known' ->
     dict_has s known_tweets = true -> dict_has s known' = true)
  /\ (forall known_tweets tweet_id new_tweet known' s d,
     add_known_tweet known_tweets tweet_id new_tweet = Some known' ->
     dict_get s known_tweets = Some (JDict d) ->
     dict_get "api_returned_null" d = Some (JBool true) ->
     exists d', dict_get s known' = Some (JDict d')
                /\ dict_get "api_returned_null" d' = Some (JBool true))
  /\ (forall known_tweets ids out s d,
     tweet_ids_to_download_filtered known_tweets ids = Some out ->
     dict_get s known_tweets = Some (JDict d) ->
     dict_get "api_returned_null" d = Some (JBool true) ->
     ~ In (JStr s) out)
  /\ (forall tweet known t v ids,
     unwrap_tweet tweet = JDict t -> dict_has "from_archive" t = true ->
     dict_get "id_str" t = Some v -> is_null v = false ->
     ((dict_has "from_api" t = false
       /\ exists s, dict_get "full_text" t = Some (JStr s) /\ String.prefix "RT @" s = true)
      \/ (dict_has "download_with_alt_text" t = false
          /\ has_path (JDict t) ["entities"; "media"] = Some true)) ->
     collect_tweet_references tweet known = Some ids ->
     existsb (py_eq v) ids = true).
Proof.
  split; [|split; [|split]].
  - intros known tweet_id nt known' s H Hs. unfold add_known_tweet in H.
    destruct nt as [nt|]; destruct (dict_get tweet_id known) as [old|];
      try destruct old; try destruct (py_eq _ _);
      try destruct (merge_dicts _ _ _);
      inversion H; subst; auto using dict_has_set.
  - intros known tweet_id nt known' s d H Hs Hf.
    destruct (String.eqb s tweet_id) eqn:E.
    2:{ apply String.eqb_neq in E. unfold add_known_tweet in H.
        exists d. split; [|exact Hf].
        destruct nt as [nt|]; destruct (dict_get tweet_id known) as [old|];
          try destruct old; try destruct (py_eq _ _);
          try destruct (merge_dicts _ _ _);
          inversion H; subst; rewrite ?dict_get_set_other; auto. }
    apply String.eqb_eq in E; subst tweet_id. unfold add_known_tweet in H.
    rewrite Hs in H. destruct nt as [nt|].
    + destruct (py_eq (JDict d) (JDict nt)).
      * inversion H; subst. eauto.
      * destruct (merge_dicts [] d (JDict nt)) as [d' e] eqn:Em. inversion H; subst.
        exists d'. rewrite dict_get_set_same. split; [reflexivity|].
        eapply merge_dicts_keeps_api_returned_null; eauto.
    + inversion H; subst. eexists. rewrite dict_get_set_same.
      split; [reflexivity | apply dict_get_set_same].
  - intros known ids out s d H Hs Hf Hin.
    assert (Hc : classify_tweet_id known (JStr s) = Some ApiReturnedNull).
    { simpl. rewrite Hs. unfold py_in, py_index, dict_has. now rewrite Hf. }
    unfold tweet_ids_to_download_filtered in H. destruct ids as [|i ids'].
    + inversion H; subst. exact Hin.
    + destruct (split_by_availability known (i :: ids')) as [[[n r] x]|] eqn:Esp;
        [|discriminate].
      inversion H; subst. apply in_app_or in Hin.
      destruct (split_by_availability_class _ _ _ _ _ Esp) as [Hn Hx].
      destruct Hin as [Hin|Hin]; [rewrite Hn in Hc | rewrite Hx in Hc]; auto; discriminate.
  - intros tweet known t v ids Hu Hfa Hid Hnn Hcase H.
    unfold collect_tweet_references in H. rewrite Hu, Hfa in H. cbv zeta in H. cbn [negb] in H.
    do 4 lazymatch type of H with
         | match ?X with None => _ | Some _ => _ end = _ =>
             let E := fresh "E" in destruct X as [?|] eqn:E; [|discriminate H]
         end.
    destruct (existsb is_null _); [discriminate|]. injection H as <-.
    lazymatch goal with
    | E3 : (if _ then _ else Some ?i2) = Some ?i3, E4 : (if _ then Some ?i3 else _) = Some ?i4
      |- _ =>
        assert (Hg : incl i3 i4)
          by (destruct (dict_has "download_with_alt_text" t);
              [injection E4 as <-; apply incl_refl|];
              destruct (has_path (JDict t) ["entities"; "media"]) as [[]|];
              [exact (add_own_id_grows _ _ _ E4) | injection E4 as <-; apply incl_refl
              | discriminate]);
        destruct Hcase as [(Hapi & s & Hft & Hrt) | (Halt & Hmed)];
        [ apply (existsb_incl _ i3 i4 Hg);
          rewrite Hapi, (dict_has_get _ _ _ Hft), Hft in E3; cbn [negb andb opt_to_json starts_with_rt] in E3;
          rewrite Hrt in E3; exact (add_own_id_adds t i2 i3 v Hid Hnn E3)
        | rewrite Halt, Hmed in E4; exact (add_own_id_adds t i3 i4 v Hid Hnn E4) ]
    end.
Qed.

Lemma api_returned_null_kept_and_not_downloaded_witness :
  let t := JDict [("id_str", JStr "7"); ("api_returned_null", JBool true)] in
  let m := [("id_str", JStr "5"); ("from_archive", JBool true);
            ("entities", JDict [("media", JList [JDict [("type", JStr "photo")]])])] in
  tweet_ids_to_download_filtered [("7", t)] [JStr "7"; JStr "8"] = Some [JStr "8"]
  /\ ~ In (JStr "7") [JStr "8"]
  /\ collect_tweet_references (JDict m) [] = Some [JStr "5"]
  /\ existsb (py_eq (JStr "5")) [JStr "5"] = true.
Proof.
  split; [reflexivity|]. split.
  - exact (proj1 (proj2 (proj2 api_returned_null_kept_and_not_downloaded))
             [("7", JDict [("id_str", JStr "7"); ("api_returned_null", JBool true)])]
             [JStr "7"; JStr "8"] [JStr "8"] "7"
             [("id_str", JStr "7"); ("api_returned_null", JBool true)]
             eq_refl eq_refl eq_refl).
  - split; [reflexivity|].
    apply (proj2 (proj2 (proj2 api_returned_null_kept_and_not_downloaded))
             (JDict [("id_str", JStr "5"); ("from_archive", JBool true);
                     ("entities", JDict [("media", JList [JDict [("type", JStr "photo")]])])])
             [] [("id_str", JStr "5"); ("from_archive", JBool true);
                 ("entities", JDict [("media", JList [JDict [("type", JStr "photo")]])])]);
      try reflexivity.
    right. split; reflexivity.
Defined.

(** C4: the reference collector returns the id of a stored record that
    has [api_returned_null = True] when the record is an archived retweet
    (its [full_text] starts with ["RT @"] and it has no [from_api]). *)
Lemma collector_returns_api_returned_null_id :
  let t := JDict [("id_str", JStr "7"); ("from_archive", JBool true);
                  ("full_text", JStr "RT @x: hi"); ("api_returned_null", JBool true)] in
  collect_tweet_references t [("7", t)] = Some [JStr "7"].
Proof. reflexivity. Qed.

(** ** Lemmas on rendering *)

Section ConvertTweetFacts.
Variable other_failure : json -> bool.
Variable known_tweets : option dict.

Lemma convert_tweet_unfold (tweet : json) (depth : nat) :
  convert_tweet other_failure known_tweets tweet depth
  = convert_tweet_body other_failure known_tweets
      (fun inner => convert_tweet other_failure known_tweets inner (S depth)) tweet depth.
Proof.
  unfold convert_tweet.
  destruct (Nat.leb 5 depth) eqn:E.
  - destruct (5 - depth); simpl; unfold convert_tweet_body; rewrite E; reflexivity.
  - apply Nat.leb_gt in E.
    replace (5 - depth) with (S (5 - S depth)) by lia. reflexivity.
Qed.
End ConvertTweetFacts.

(** ** Claim on the quote recursion *)

(** C5: [convert_tweet] raises [QuoteRecursionDepthError] exactly when
    [depth >= 5]; below that the error of a quoted tweet is caught and
    shown as a notice.  From depth 0, a chain of 6 quoting tweets renders
    5 levels and shows the notice in place of the 6th; a chain of 5
    renders completely. *)
Theorem convert_tweet_quote_depth :
  (forall other_failure known_tweets tweet depth, 5 <= depth ->
     convert_tweet other_failure known_tweets tweet depth = inl QuoteRecursionDepthError)
  /\ (forall other_failure known_tweets tweet depth, depth < 5 ->
     convert_tweet other_failure known_tweets tweet depth <> inl QuoteRecursionDepthError)
  /\ convert_tweet (fun _ => false) (Some (chain_store 6)) (chain_tweet 6 1) 0
     = inr (quoted_chain 4 (Some (inl QuoteRecursionDepthError)))
  /\ convert_tweet (fun _ => false) (Some (chain_store 5)) (chain_tweet 5 1) 0
     = inr (quoted_chain 4 None).
Proof.
  split; [|split; [|split]].
  - intros of kt t d Hd. rewrite convert_tweet_unfold. unfold convert_tweet_body.
    apply Nat.leb_le in Hd. now rewrite Hd.
  - intros of kt t d Hd. rewrite convert_tweet_unfold. unfold convert_tweet_body.
    apply Nat.leb_gt in Hd. rewrite Hd.
    destruct (unwrap_tweet t) as [| | | | |dt]; try discriminate.
    destruct (dict_get "full_text" dt) as [[]|]; try discriminate;
    repeat match goal with
    | |- context [if ?c then _ else _] => destruct c
    | |- context [match ?c with _ => _ end] => destruct c
    end; discriminate.
  - vm_compute. reflexivity.
  - vm_compute. reflexivity.
Qed.

Lemma convert_tweet_quote_depth_witness :
  convert_tweet (fun _ => false) (Some (chain_store 6)) (chain_tweet 6 6) 5
    = inl QuoteRecursionDepthError
  /\ convert_tweet (fun _ => false) (Some (chain_store 6)) (chain_tweet 6 5) 4
    <> inl QuoteRecursionDepthError.
Proof.
  split.
  - apply (proj1 convert_tweet_quote_depth). lia.
  - apply (proj1 (proj2 convert_tweet_quote_depth)). lia.
Defined.

(** ** Lemmas on pagination *)

Section ChunksFacts.
Local Open Scope list_scope.
Variable A : Type.

Lemma firstn_add (a b : nat) (l : list A) :
  firstn (a + b) l = firstn a l ++ firstn b (skipn a l).
Proof.
  revert l. induction a as [|a IH]; intros l; [reflexivity|].
  destruct l as [|x l]; simpl; [now destruct b | now rewrite IH].
Qed.

Lemma concat_chunks_prefix (n k : nat) (lst : list A) :
  concat (map (fun j => firstn n (skipn (j * n) lst)) (seq 0 k)) = firstn (k * n) lst.
Proof.
  induction k as [|k IH]; [reflexivity|].
  rewrite seq_S, map_app, concat_app, IH. simpl. rewrite app_nil_r.
  rewrite (Nat.add_comm n (k * n)). now rewrite firstn_add.
Qed.

Lemma chunks_count_bound (n len : nat) :
  0 < n -> (len + n - 1) / n * n <= len + n - 1 /\ len <= (len + n - 1) / n * n.
Proof.
  intros Hn. pose proof (Nat.div_mod (len + n - 1) n ltac:(lia)) as Hdm.
  pose proof (Nat.mod_upper_bound (len + n - 1) n ltac:(lia)) as Hm.
  nia.
Qed.

Lemma concat_chunks (lst : list A) (n : nat) :
  0 < n -> concat (chunks A lst n) = lst.
Proof.
  intros Hn. unfold chunks. rewrite concat_chunks_prefix.
  apply firstn_all2. apply chunks_count_bound; lia.
Qed.

Lemma length_chunks (lst : list A) (n : nat) :
  length (chunks A lst n) = (length lst + n - 1) / n.
Proof. unfold chunks. now rewrite length_map, length_seq. Qed.

(** Every chunk but the last has [n] elements, the last between 1 and [n]. *)
Lemma chunk_sizes (lst : list A) (n j : nat) (c : list A) :
  0 < n -> nth_error (chunks A lst n) j = Some c ->
  length c = n \/ (S j = length (chunks A lst n) /\ 0 < length c <= n).
Proof.
  intros Hn H. rewrite length_chunks. unfold chunks in H.
  rewrite nth_error_map, nth_error_seq in H.
  destruct (Nat.ltb_spec j ((length lst + n - 1) / n)) as [Hj|Hj]; [|discriminate].
  simpl in H. inversion H; subst c. clear H.
  rewrite length_firstn, length_skipn.
  destruct (chunks_count_bound n (length lst) Hn) as [H1 H2].
  set (q := (length lst + n - 1) / n) in *.
  destruct (Nat.eq_dec (S j) q) as [Hq|Hq].
  - right. split; [exact Hq|]. subst q. nia.
  - left. assert (S (S j) <= q) by lia. nia.
Qed.

Lemma conversation_files_split (messages : list A) :
  1000 < length messages ->
  conversation_files A messages
  = map (fun '(chunk_index, chunk) => {| dm_index := Some (chunk_index + 1); dm_messages := chunk |})
        (combine (seq 0 (length (chunks A messages 1000))) (chunks A messages 1000)).
Proof.
  intros H. unfold conversation_files. apply Nat.ltb_lt in H. now rewrite H.
Qed.

Lemma combine_seq_fst_snd (start : nat) (l : list (list A)) :
  map fst (combine (seq start (length l)) l) = seq start (length l)
  /\ map snd (combine (seq start (length l)) l) = l.
Proof.
  revert start. induction l as [|x l IH]; intros start; [split; reflexivity|].
  simpl. destruct (IH (S start)) as [H1 H2]. now rewrite H1, H2.
Qed.
End ChunksFacts.

Lemma nth_error_combine_seq (A : Type) (l : list A) (s j : nat) :
  nth_error (combine (seq s (length l)) l) j = option_map (fun c => (s + j, c)) (nth_error l j).
Proof.
  revert s j. induction l as [|x l IH]; intros s j; [now destruct j|].
  destruct j; simpl; [now rewrite Nat.add_0_r|].
  rewrite IH. now replace (S s + j) with (s + S j) by lia.
Qed.

(** C6: a conversation of at most 1000 messages is written as one file
    holding all of them; a longer one as parts numbered 1, 2, ... whose
    messages, in order, are all the messages, every part but the last
    holding exactly 1000 and the last between 1 and 1000.  So 1000
    messages give one file and 1001 give two files of 1000 and 1. *)
Theorem conversation_pagination :
  (forall (A : Type) (messages : list A), length messages <= 1000 ->
     conversation_files A messages = [{| dm_index := None; dm_messages := messages |}])
  /\ (forall (A : Type) (messages : list A), 1000 < length messages ->
     let files := conversation_files A messages in
     concat (map (dm_messages A) files) = messages
     /\ map (dm_index A) files = map Some (seq 1 (length files))
     /\ (forall j f, nth_error files j = Some f ->
           length (dm_messages A f) = 1000
           \/ (S j = length files /\ 0 < length (dm_messages A f) <= 1000)))
  /\ map (fun f => (dm_index unit f, length (dm_messages unit f)))
         (conversation_files unit (repeat tt 1000)) = [(None, 1000)]
  /\ map (fun f => (dm_index unit f, length (dm_messages unit f)))
         (conversation_files unit (repeat tt 1001)) = [(Some 1, 1000); (Some 2, 1)].
Proof.
  split; [|split; [|split]].
  - intros A messages H. unfold conversation_files.
    apply Nat.ltb_ge in H. now rewrite H.
  - intros A messages H files. subst files.
    rewrite conversation_files_split by exact H.
    set (C := chunks A messages 1000).
    destruct (combine_seq_fst_snd A 0 C) as [Hfst Hsnd].
    repeat split.
    + rewrite map_map.
      erewrite map_ext with (g := snd) by (intros [i c]; reflexivity).
      rewrite Hsnd. apply concat_chunks. lia.
    + rewrite map_map, length_map, length_combine, length_seq, Nat.min_id.
      erewrite map_ext with (g := fun p => Some (S (fst p))) by (intros [i c]; simpl; f_equal; lia).
      rewrite <- map_map with (f := fst) (g := fun i => Some (S i)), Hfst.
      rewrite <- seq_shift, map_map. reflexivity.
    + intros j f Hf. rewrite nth_error_map, nth_error_combine_seq in Hf.
      destruct (nth_error C j) as [c|] eqn:Ec; [|discriminate].
      simpl in Hf. inversion Hf; subst f. simpl.
      rewrite length_map, length_combine, length_seq, Nat.min_id.
      apply (chunk_sizes A messages 1000 j c); [lia | exact Ec].
  - vm_compute. reflexivity.
  - vm_compute. reflexivity.
Qed.

Lemma conversation_pagination_witness :
  conversation_files unit (repeat tt 3) = [{| dm_index := None; dm_messages := repeat tt 3 |}]
  /\ concat (map (dm_messages unit) (conversation_files unit (repeat tt 2500))) = repeat tt 2500.
Proof.
  split.
  - apply (proj1 conversation_pagination). simpl. lia.
  - apply (proj1 (proj1 (proj2 conversation_pagination) unit (repeat tt 2500)
                   ltac:(rewrite repeat_length; lia))).
Defined.

(** ** Claims on [escape_markdown] *)

Lemma escape_char_spec (c : ascii) :
  escape_char c =
    if markdown_metachar c then String "\" (String c EmptyString)
    else if Ascii.eqb c newline then String " " (String " " (String c EmptyString))
    else String c EmptyString.
Proof. destruct c as [[] [] [] [] [] [] [] []]; reflexivity. Qed.

Lemma string_app_nil_r (s : string) : s ++ EmptyString = s.
Proof. induction s as [|c s IH]; simpl; [reflexivity | now rewrite IH]. Qed.

Lemma string_app_assoc (s t u : string) : s ++ (t ++ u) = (s ++ t) ++ u.
Proof. induction s as [|c s IH]; simpl; [reflexivity | now rewrite IH]. Qed.

Lemma escape_loop_app (acc s : string) :
  escape_loop acc s = acc ++ escape_markdown_spec s.
Proof.
  revert acc. induction s as [|c s IH]; intros acc; simpl.
  - now rewrite string_app_nil_r.
  - rewrite IH, <- string_app_assoc, escape_char_spec.
    destruct (markdown_metachar c), (Ascii.eqb c newline); reflexivity.
Qed.

(** C7: [escape_markdown] puts a backslash before exactly the characters
    [\ _ * [ ] ( ) ~ ` > # + - = | { } . !], puts two spaces before every
    line break and keeps every other character; its output has no
    unescaped metacharacter. *)
Theorem escape_markdown_correct (s : string) :
  escape_markdown s = escape_markdown_spec s
  /\ no_unescaped_metachar (escape_markdown s) = true.
Proof.
  unfold escape_markdown. rewrite escape_loop_app. simpl. split; [reflexivity|].
  induction s as [|c s IH]; [reflexivity|]. simpl.
  destruct (markdown_metachar c) eqn:Em.
  - simpl. now rewrite Em, IH.
  - destruct (Ascii.eqb c newline) eqn:En.
    + apply Ascii.eqb_eq in En. subst c. simpl. exact IH.
    + simpl. destruct (Ascii.eqb c "\") eqn:Eb.
      * apply Ascii.eqb_eq in Eb. subst c. discriminate Em.
      * now rewrite Em, IH.
Qed.

(** ** Claims on [read_json_from_js_file] *)

Lemma prefix_nil (x : string) : String.prefix EmptyString x = true.
Proof. destruct x; reflexivity. Qed.

Lemma contains_app_r (c : ascii) (s t : string) :
  contains (String c EmptyString) (s ++ t)
  = contains (String c EmptyString) s || contains (String c EmptyString) t.
Proof.
  induction s as [|d s IH]; [reflexivity|].
  simpl. rewrite IH. destruct (ascii_dec c d); simpl; [|reflexivity].
  rewrite !prefix_nil. reflexivity.
Qed.

(** C8 (amended): a file of at most one line gives the empty dict; a
    longer one is parsed from ['['], followed by [' {'] exactly when the
    discarded first line contains ['{'], followed by the other lines.  So
    for a first line [p ++ "[\n"] or [p ++ "[ {\n"] whose assignment
    prefix [p] has no ['{'], the text parsed is the array literal the file
    assigns. *)
Theorem read_json_from_js_file_text :
  (forall data, length data <= 1 -> read_json_from_js_file data = EmptyDictResult)
  /\ (forall first second rest,
       read_json_from_js_file (first :: second :: rest)
       = JsonLoads ("[" ++ (if contains "{" first then " {" else EmptyString)
                    ++ join_lines (second :: rest)))
  /\ (forall p second rest, contains "{" p = false ->
       read_json_from_js_file ((p ++ String "[" (String newline EmptyString)) :: second :: rest)
       = JsonLoads ("[" ++ join_lines (second :: rest))
       /\ read_json_from_js_file ((p ++ "[ {" ++ String newline EmptyString) :: second :: rest)
       = JsonLoads ("[ {" ++ join_lines (second :: rest))).
Proof.
  split; [|split].
  - intros data H. unfold read_json_from_js_file. apply Nat.leb_le in H. now rewrite H.
  - intros first second rest. reflexivity.
  - intros p second rest Hp. unfold read_json_from_js_file. simpl.
    rewrite !contains_app_r, Hp. split; reflexivity.
Qed.

Lemma read_json_from_js_file_text_witness :
  read_json_from_js_file ["window.YTD.x.part0 = "] = EmptyDictResult
  /\ read_json_from_js_file [("window.YTD.x.part0 = [" ++ String newline EmptyString);
                             "{}]"]
     = JsonLoads "[{}]".
Proof.
  split.
  - apply (proj1 read_json_from_js_file_text). simpl. lia.
  - apply (proj2 (proj2 read_json_from_js_file_text) "window.YTD.x.part0 = " "{}]" []).
    reflexivity.
Defined.

(** C8: the brace follows the first line, not the second: a file whose
    first line opens the object gets [" {"] although its second line does
    not open one, and a file whose second line opens the object gets
    none. *)
Lemma read_json_brace_from_first_line :
  let nl := String newline EmptyString in
  let dq := String (ascii_of_nat 34) EmptyString in
  let f1 := [("window.YTD.account.part0 = [ {" ++ nl); ("  " ++ dq ++ "account" ++ dq ++ " : 1" ++ nl); "} ]"] in
  let f2 := [("window.YTD.account.part0 = [" ++ nl); ("  {" ++ nl); ("  " ++ dq ++ "account" ++ dq ++ " : 1 } ]")] in
  opens_object (nth 1 f1 EmptyString) = false
  /\ read_json_from_js_file f1 = JsonLoads ("[ {" ++ join_lines (tl f1))
  /\ opens_object (nth 1 f2 EmptyString) = true
  /\ read_json_from_js_file f2 = JsonLoads ("[" ++ join_lines (tl f2)).
Proof. repeat split; reflexivity. Qed.

(** ** Claims on the video variant selection *)

Lemma declares_dict d b u :
  declares (JDict d) b u ->
  dict_has "bitrate" d = true /\ option_bind py_int (dict_get "bitrate" d) = Some b
  /\ dict_get "url" d = Some (JStr u).
Proof. intros (d' & E & H). injection E as <-. exact H. Qed.

Lemma select_variant_inv (vs : list json) (url0 : string) (best0 : Z) :
  (forall v, In v vs -> readable_variant v) ->
  exists u b, select_variant vs (JStr url0) best0 = Some (JStr u, b)
   /\ ((u = url0 /\ b = best0 /\ forall v b' u', In v vs -> declares v b' u' -> (b' <= best0)%Z)
       \/ ((best0 < b)%Z /\ first_highest vs u b)).
Proof.
  revert url0 best0.
  induction vs as [|v r IH]; intros url0 best0 Hr.
  - exists url0, best0. split; [reflexivity|]. left. repeat split. intros v b' u' [].
  - assert (Hr' : forall w, In w r -> readable_variant w) by (intros w Hw; apply Hr; now right).
    destruct (Hr v (or_introl eq_refl)) as (d & -> & Hd).
    cbn [select_variant py_in py_index].
    destruct (dict_has "bitrate" d) eqn:Eh.
    + destruct (Hd eq_refl) as (b1 & u1 & Hb1 & Hu1). rewrite Hb1.
      assert (Hdet : forall b' u', declares (JDict d) b' u' -> b' = b1 /\ u' = u1).
      { intros b' u' Hdec. destruct (declares_dict d b' u' Hdec) as (_ & Hb' & Hu').
        rewrite Hb1 in Hb'. rewrite Hu1 in Hu'. injection Hb' as ->. injection Hu' as ->. auto. }
      assert (Hdec1 : declares (JDict d) b1 u1) by (exists d; auto).
      destruct (Z.ltb_spec best0 b1) as [Hlt|Hge].
      * rewrite Hu1. destruct (IH u1 b1 Hr') as (u & b & Hs & Hcase). exists u, b. split; [exact Hs|].
        right. destruct Hcase as [(-> & -> & Hall) | (Hb & pre & w & post & Heq & Hw & Hpre & Hpost)].
        -- split; [exact Hlt|]. exists [], (JDict d), r. repeat split; [exact Hdec1| |exact Hall].
           intros w b' u' [].
        -- split; [lia|]. exists (JDict d :: pre), w, post. subst r. repeat split; [exact Hw| |exact Hpost].
           intros w' b' u' [<-|Hin] Hdec; [destruct (Hdet b' u' Hdec) as [-> _]; lia | eauto].
      * destruct (IH url0 best0 Hr') as (u & b & Hs & Hcase). exists u, b. split; [exact Hs|].
        destruct Hcase as [(-> & -> & Hall) | (Hb & pre & w & post & Heq & Hw & Hpre & Hpost)].
        -- left. repeat split. intros w b' u' [<-|Hin] Hdec;
             [destruct (Hdet b' u' Hdec) as [-> _]; lia | eauto].
        -- right. split; [exact Hb|]. exists (JDict d :: pre), w, post. subst r.
           repeat split; [exact Hw| |exact Hpost].
           intros w' b' u' [<-|Hin] Hdec; [destruct (Hdet b' u' Hdec) as [-> _]; lia | eauto].
    + assert (Hnone : forall b' u', ~ declares (JDict d) b' u').
      { intros b' u' Hdec. destruct (declares_dict d b' u' Hdec) as (E & _). congruence. }
      destruct (IH url0 best0 Hr') as (u & b & Hs & Hcase). exists u, b. split; [exact Hs|].
      destruct Hcase as [(-> & -> & Hall) | (Hb & pre & w & post & Heq & Hw & Hpre & Hpost)].
      * left. repeat split. intros w b' u' [<-|Hin] Hdec; [now apply Hnone in Hdec | eauto].
      * right. split; [exact Hb|]. exists (JDict d :: pre), w, post. subst r.
        repeat split; [exact Hw| |exact Hpost].
        intros w' b' u' [<-|Hin] Hdec; [now apply Hnone in Hdec | eauto].
Qed.

Lemma video_media_branch_select dir paths tid ourl oexp mtype mid md vi vs tm ms u b :
  dict_get "video_info" md = Some (JDict vi) -> dict_get "variants" vi = Some (JList vs) ->
  select_variant vs (JStr EmptyString) (-1) = Some (JStr u, b) ->
  video_media_branch dir paths tid ourl oexp mtype mid (JDict md) tm ms
  = if (b =? -1)%Z then Some (tm, ms, [no_video_url_warning tid ourl oexp])
    else
      let '(a, f) :=
        match rev paths with
        | p :: _ => (path_basename p, path_join dir (path_basename p))
        | [] => (strip_query (path_basename u), path_join dir (strip_query (path_basename u)))
        end in
      Some (dict_set mid (JDict [("type", mtype); ("original_url", ourl);
                                 ("best_quality_url", JStr u);
                                 ("local_filename", JStr f);
                                 ("alt_text", JStr EmptyString);
                                 ("id", JStr mid)]) tm,
            option_map (dict_set (path_join dir a) (JStr u)) ms, []).
Proof.
  intros Hvi Hvs Hs. unfold video_media_branch.
  cbn [py_in py_index py_iter option_bind].
  rewrite (dict_has_get _ _ _ Hvi), Hvi. cbn [py_in py_index option_bind].
  rewrite (dict_has_get _ _ _ Hvs), Hvs.
  destruct (rev paths); cbn [option_bind py_iter]; rewrite Hs;
    destruct (b =? -1)%Z; reflexivity.
Qed.

(** C9 (amended): for a video or animated_gif entity whose
    [video_info['variants']] is a list of variant dicts, each of which,
    when it has a ['bitrate'] key, has a bitrate [int] accepts (an int or
    a numeric string as in the archive) and a string url: if no variant
    declares a bitrate [>= 0] (none at all, or only negative ones) a
    warning is printed and neither [tweet_media] nor the download worklist
    changes; otherwise the entity's recorded [best_quality_url] is the url
    [u] of the first variant with the highest declared bitrate [b >= 0]
    (0 included), and the worklist gets an entry with value [u]. *)
Theorem video_best_quality_url dir paths tid ourl oexp mtype mid md vi vs tm ms :
  dict_get "video_info" md = Some (JDict vi) -> dict_get "variants" vi = Some (JList vs) ->
  (forall v, In v vs -> readable_variant v) ->
  ((forall v b u, In v vs -> declares v b u -> (b < 0)%Z) ->
    video_media_branch dir paths tid ourl oexp mtype mid (JDict md) tm ms
    = Some (tm, ms, [no_video_url_warning tid ourl oexp]))
  /\ ((exists v b u, In v vs /\ declares v b u /\ (0 <= b)%Z) ->
    exists u b, first_highest vs u b /\ (0 <= b)%Z
    /\ exists tm' k,
       video_media_branch dir paths tid ourl oexp mtype mid (JDict md) tm ms
       = Some (tm', option_map (dict_set k (JStr u)) ms, [])
       /\ exists e, dict_get mid tm' = Some (JDict e)
                    /\ dict_get "best_quality_url" e = Some (JStr u)).
Proof.
  intros Hvi Hvs Hr.
  destruct (select_variant_inv vs EmptyString (-1) Hr) as (u & b & Hs & Hcase).
  rewrite (video_media_branch_select dir paths tid ourl oexp mtype mid md vi vs tm ms u b Hvi Hvs Hs).
  split.
  - intros Hneg.
    destruct Hcase as [(_ & -> & _) | (Hb & pre & w & post & Hl & Hw & _ & _)]; [reflexivity|].
    exfalso. assert (Hin : In w vs)
      by (rewrite Hl; apply in_or_app; right; left; reflexivity).
    specialize (Hneg w b u Hin Hw). lia.
  - intros (v0 & b0 & u0 & Hin & Hdec & Hb0).
    destruct Hcase as [(_ & _ & Hall) | (Hb & Hfh)].
    + specialize (Hall v0 b0 u0 Hin Hdec). lia.
    + exists u, b. split; [exact Hfh|]. split; [lia|].
      destruct (Z.eqb_spec b (-1)) as [E|_]; [lia|].
      destruct (rev paths) as [|p ps]; cbn zeta;
        eexists _, _; (split; [reflexivity|]);
        eexists; (split; [apply dict_get_set_same|reflexivity]).
Qed.

(** The archive's variants: string bitrates, one variant without a
    bitrate, and a tie at the highest bitrate. *)
Lemma video_best_quality_url_witness :
  let md := [("video_info", JDict [("variants", JList
               [JDict [("content_type", JStr "application/x-mpegURL"); ("url", JStr "https://v/a.m3u8")];
                JDict [("bitrate", JStr "832000"); ("url", JStr "https://v/b.mp4?tag=1")];
                JDict [("bitrate", JStr "2176000"); ("url", JStr "https://v/c.mp4")];
                JDict [("bitrate", JInt 2176000); ("url", JStr "https://v/d.mp4")]])])] in
  exists u b, first_highest
    [JDict [("content_type", JStr "application/x-mpegURL"); ("url", JStr "https://v/a.m3u8")];
     JDict [("bitrate", JStr "832000"); ("url", JStr "https://v/b.mp4?tag=1")];
     JDict [("bitrate", JStr "2176000"); ("url", JStr "https://v/c.mp4")];
     JDict [("bitrate", JInt 2176000); ("url", JStr "https://v/d.mp4")]] u b
    /\ (0 <= b)%Z
    /\ exists tm' k,
       video_media_branch "out/media" [] "7" (JStr "https://t.co/x") "http://pbs.twimg.com/m/x.jpg" (JStr "video") "9"
         (JDict md) [] (Some [])
       = Some (tm', option_map (dict_set k (JStr u)) (Some []), [])
       /\ exists e, dict_get "9" tm' = Some (JDict e)
                    /\ dict_get "best_quality_url" e = Some (JStr u).
Proof.
  intros md.
  refine (proj2 (video_best_quality_url "out/media" [] "7" (JStr "https://t.co/x")
                    "http://pbs.twimg.com/m/x.jpg" (JStr "video") "9" md _ _ [] (Some []) eq_refl eq_refl _) _).
  - intros v Hv. destruct Hv as [<-|Hv].
    { eexists. split; [reflexivity|]. discriminate. }
    repeat (destruct Hv as [<-|Hv];
      [eexists; split; [reflexivity|]; intros _; eexists _, _; split; reflexivity|]).
    destruct Hv.
  - exists (JDict [("bitrate", JStr "832000"); ("url", JStr "https://v/b.mp4?tag=1")]), 832000%Z,
      "https://v/b.mp4?tag=1".
    split; [right; left; reflexivity|]. split; [|lia].
    eexists. split; [reflexivity|]. split; [reflexivity|]. split; reflexivity.
Defined.

(** C9: a variant declaring a negative bitrate is treated like one that
    declares none: with the single variant [bitrate = -5] nothing is
    recorded although a bitrate is declared, while with [bitrate = 0] the
    variant is recorded. *)
Lemma video_negative_bitrate_ignored :
  video_media_branch "out/media" [] "7" (JStr "https://t.co/x") "http://pbs.twimg.com/m/x.jpg" (JStr "video") "9"
    (video_media [(Some (-5)%Z, "https://video.twimg.com/v.mp4")]) [] (Some [])
  = Some ([], Some [], [no_video_url_warning "7" (JStr "https://t.co/x") "http://pbs.twimg.com/m/x.jpg"])
  /\ option_map (fun r => snd (fst r))
       (video_media_branch "out/media" [] "7" (JStr "https://t.co/x") "http://pbs.twimg.com/m/x.jpg" (JStr "video") "9"
          (video_media [(Some 0%Z, "https://video.twimg.com/v.mp4")]) [] (Some []))
     = Some (Some [("out/media/v.mp4", JStr "https://video.twimg.com/v.mp4")]).
Proof. split; vm_compute; reflexivity. Qed.

(** * Further properties of the code *)

Lemma size_nat_bound (p : positive) : (Zpos p < 2 ^ Z.of_nat (Pos.size_nat p))%Z.
Proof.
  induction p as [p IH|p IH|].
  - change (Pos.size_nat p~1) with (S (Pos.size_nat p)).
    rewrite Nat2Z.inj_succ, Z.pow_succ_r, Pos2Z.inj_xI by lia. lia.
  - change (Pos.size_nat p~0) with (S (Pos.size_nat p)).
    rewrite Nat2Z.inj_succ, Z.pow_succ_r, Pos2Z.inj_xO by lia. lia.
  - simpl. lia.
Qed.

Lemma string_length_app (s t : string) : String.length (s ++ t) = String.length s + String.length t.
Proof. induction s; simpl; auto. Qed.

Lemma all_digits_app (s t : string) : all_digits (s ++ t) = all_digits s && all_digits t.
Proof. induction s; simpl; [reflexivity|]. rewrite IHs. apply andb_assoc. Qed.

Lemma int_of_digits_acc_app (a : Z) (s t : string) :
  int_of_digits_acc a (s ++ t) = int_of_digits_acc (int_of_digits_acc a s) t.
Proof. revert a. induction s; simpl; auto. Qed.

Lemma digit_char (r : Z) : (0 <= r < 10)%Z ->
  let c := ascii_of_nat (48 + Z.to_nat r) in
  is_digit c = true /\ Z.of_nat (nat_of_ascii c - 48) = r.
Proof.
  intros Hr c. unfold c, is_digit. rewrite nat_ascii_embedding by lia.
  split; [apply andb_true_intro; split; apply Nat.leb_le; lia | lia].
Qed.

Lemma digits_of_pos_spec (f : nat) (p : positive) (acc : string) :
  (Zpos p < 2 ^ Z.of_nat f)%Z ->
  exists D, digits_of_pos f p acc = D ++ acc /\ D <> EmptyString /\ all_digits D = true
    /\ forall a, int_of_digits_acc a D = (a * 10 ^ Z.of_nat (String.length D) + Zpos p)%Z.
Proof.
  revert p acc. induction f as [|f IH]; intros p acc Hp.
  - change (2 ^ Z.of_nat 0)%Z with 1%Z in Hp. lia.
  - rewrite Nat2Z.inj_succ, Z.pow_succ_r in Hp by lia.
    pose proof (Z.mod_pos_bound (Zpos p) 10 ltac:(lia)) as Hm.
    pose proof (Z.div_mod (Zpos p) 10 ltac:(lia)) as Hd.
    set (c := ascii_of_nat (48 + Z.to_nat (Zpos p mod 10))).
    destruct (digit_char (Zpos p mod 10) Hm) as [Hdig Hval]. fold c in Hdig, Hval.
    cbn [digits_of_pos]. fold c.
    destruct (Zpos p / 10)%Z as [|p'|p'] eqn:Eq.
    + exists (String c EmptyString).
      repeat split; [discriminate| cbn [all_digits]; now rewrite Hdig |].
      intros a. cbn [int_of_digits_acc String.length]. rewrite Hval.
      change (10 ^ Z.of_nat 1)%Z with 10%Z. lia.
    + assert (Hp' : (Zpos p' < 2 ^ Z.of_nat f)%Z) by lia.
      destruct (IH p' (String c acc) Hp') as (D & HD & Hne & Hall & Hint).
      exists (D ++ String c EmptyString).
      rewrite HD. repeat split.
      * now rewrite <- string_app_assoc.
      * destruct D; [contradiction|discriminate].
      * rewrite all_digits_app, Hall. cbn [all_digits]. now rewrite Hdig.
      * intros a. rewrite int_of_digits_acc_app, Hint. cbn [int_of_digits_acc]. rewrite Hval.
        rewrite string_length_app. cbn [String.length].
        rewrite Nat2Z.inj_add, Z.pow_add_r by lia. change (10 ^ Z.of_nat 1)%Z with 10%Z. lia.
    + pose proof (Z.div_pos (Zpos p) 10 ltac:(lia) ltac:(lia)). lia.
Qed.


(** Two values that [parse_as_number] accepts are compared by [equal_ignore_types] by their numeric values: the string ['007'] equals the int [7]. *)
Theorem equal_ignore_types_numbers (x y nx ny : json) :
  parse_as_number x = Some nx -> parse_as_number y = Some ny ->
  equal_ignore_types x y = Some (Z.eqb (num_value nx) (num_value ny)).
Proof.
  intros Hx Hy.
  destruct x as [| b | z | s | |]; try discriminate;
  destruct y as [| b' | z' | t | |]; try discriminate;
  cbn [parse_as_number] in Hx, Hy;
  repeat match goal with
         | H : context [if ?c then _ else _] |- _ => destruct c eqn:?; [|discriminate]
         end;
  injection Hx as <-; injection Hy as <-;
  cbn [equal_ignore_types parse_as_number py_eq is_int num_value andb];
  repeat match goal with E : isnumeric _ = true |- _ => rewrite E end;
  cbn [py_eq is_int num_value andb].
  all: try (destruct (Z.eqb _ _); reflexivity).
  all: try (destruct (String.eqb s t) eqn:Est; [apply String.eqb_eq in Est; subst; now rewrite Z.eqb_refl | reflexivity]).
Qed.

(** [equal_ignore_types] on two dicts of the same size raises a [KeyError] ([None]) when the first key of [a] is missing from [b]. *)
Theorem equal_ignore_types_key_error (k : string) (v : json) (d e : dict) :
  length ((k, v) :: d) = length e -> dict_get k e = None ->
  equal_ignore_types (JDict ((k, v) :: d)) (JDict e) = None.
Proof.
  intros Hlen Hk. cbn [equal_ignore_types py_eq parse_as_number].
  rewrite Hk, Hlen, Nat.eqb_refl. reflexivity.
Qed.

(** ** merge_dicts and keys *)
Lemma dict_has_set_iff (s k : string) (v : json) (d : dict) :
  dict_has s (dict_set k v d) = String.eqb s k || dict_has s d.
Proof.
  unfold dict_has. destruct (String.eqb s k) eqn:E.
  - apply String.eqb_eq in E; subst. now rewrite dict_get_set_same.
  - apply String.eqb_neq in E. now rewrite dict_get_set_other.
Qed.

Lemma merge_entry_keys rec path k vb a a' e :
  merge_entry rec path k vb a = (a', e) ->
  forall s, dict_has s a' = String.eqb s k || dict_has s a.
Proof.
  intros H s. unfold merge_entry in H.
  destruct (dict_get k a) as [va|] eqn:Ek.
  2:{ injection H as <- _. apply dict_has_set_iff. }
  assert (Hk : String.eqb s k = true -> dict_has s a = true)
    by (intros E; apply String.eqb_eq in E; subst; unfold dict_has; now rewrite Ek).
  assert (Hset : forall w, dict_has s (dict_set k w a) = String.eqb s k || dict_has s a)
    by (intros w; apply dict_has_set_iff).
  assert (Hsame : dict_has s a = String.eqb s k || dict_has s a)
    by (destruct (String.eqb s k); [now rewrite Hk | reflexivity]).
  destruct va, vb;
  try (unfold merge_scalar in H;
       repeat match type of H with
              | context [if ?c then _ else _] => destruct c
              | context [match ?c with _ => _ end] => destruct c
              end; injection H as <- _; first [apply Hset | exact Hsame]).
  all: try (destruct (rec _ _ _) in H; injection H as <- _; apply Hset).
  all: try (destruct (merge_lists _ _ _) in H; injection H as <- _; apply Hset).
Qed.

Section LoopKeys.
Variable step : string -> json -> dict -> dict * option exn.
Hypothesis step_keys : forall k vb a a' e, step k vb a = (a', e) ->
  forall s, dict_has s a' = String.eqb s k || dict_has s a.

Lemma dict_loop_keys (s : string) : forall kvs a a' e,
  dict_loop step a kvs = (a', e) ->
  (dict_has s a = true -> dict_has s a' = true)
  /\ (dict_has s a' = true -> dict_has s a = true \/ In s (map fst kvs))
  /\ (e = None -> In s (map fst kvs) -> dict_has s a' = true).
Proof.
  induction kvs as [|[k vb] rest IH]; intros a a' e H; cbn [dict_loop] in H.
  - injection H as <- <-. repeat split; auto; intros _ [].
  - destruct (step k vb a) as [a1 e1] eqn:Es.
    pose proof (step_keys _ _ _ _ _ Es s) as Hs.
    destruct e1 as [x|].
    + injection H as <- <-. rewrite Hs. repeat split.
      * intros ->. apply orb_true_r.
      * intros Ho. apply orb_true_iff in Ho as [Ho|Ho]; [right; left; symmetry; now apply String.eqb_eq | now left].
      * discriminate.
    + destruct (IH a1 a' e H) as (H1 & H2 & H3). rewrite Hs in H1, H2. repeat split.
      * intros Ha. apply H1. now rewrite Ha, orb_true_r.
      * intros Ha. destruct (H2 Ha) as [Ho|Ho].
        -- apply orb_true_iff in Ho as [Ho|Ho]; [right; left; symmetry; now apply String.eqb_eq | now left].
        -- right. now right.
      * intros He [Hk|Hin].
        -- cbn [fst] in Hk. subst k. apply H1. now rewrite String.eqb_refl.
        -- now apply H3.
Qed.
End LoopKeys.

(** [merge_dicts] never removes a key of [a]; every key it leaves in [a] was in [a] or in [b]; when it does not raise, every key of [b] is in [a]. *)
Theorem merge_dicts_keys (path : list string) (a b : dict) (s : string) :
  let (a', e) := merge_dicts path a (JDict b) in
  (dict_has s a = true -> dict_has s a' = true)
  /\ (dict_has s a' = true -> dict_has s a = true \/ In s (map fst b))
  /\ (e = None -> In s (map fst b) -> dict_has s a' = true).
Proof.
  destruct (merge_dicts path a (JDict b)) as [a' e] eqn:H. cbn [merge_dicts] in H.
  eapply dict_loop_keys; [|exact H].
  intros k vb a0 a1 e0 Hs. eapply merge_entry_keys. exact Hs.
Qed.

Lemma dict_set_new (k : string) (v : json) (a : dict) :
  dict_get k a = None -> dict_set k v a = (a ++ [(k, v)])%list.
Proof.
  induction a as [|[k' v'] a IH]; cbn [dict_get dict_set]; [reflexivity|].
  destruct (String.eqb k k'); [discriminate|]. intros H. now rewrite IH.
Qed.

Lemma dict_get_app_none (x : string) (a l : dict) :
  dict_get x a = None -> dict_get x (a ++ l)%list = dict_get x l.
Proof.
  induction a as [|[k' v'] a IH]; cbn [dict_get app]; [reflexivity|].
  destruct (String.eqb x k'); [discriminate|]. exact IH.
Qed.

(** When no key of [b] is in [a] (and the keys of [b] are distinct), [merge_dicts] appends the entries of [b] to [a] in order and raises nothing. *)
Theorem merge_dicts_fresh_keys (path : list string) (a b : dict) :
  (forall k, In k (map fst b) -> dict_get k a = None) -> NoDup (map fst b) ->
  merge_dicts path a (JDict b) = ((a ++ b)%list, None).
Proof.
  cbn [merge_dicts]. revert a.
  induction b as [|[k vb] rest IH]; intros a Hfresh Hnd; cbn [dict_loop].
  - now rewrite app_nil_r.
  - unfold merge_entry at 1. rewrite (Hfresh k (or_introl eq_refl)).
    rewrite dict_set_new by (apply Hfresh; now left).
    inversion Hnd as [|? ? Hnotin Hnd']; subst.
    rewrite IH; [now rewrite <- app_assoc| |exact Hnd'].
    intros k' Hin. rewrite dict_get_app_none by (apply Hfresh; now right).
    cbn [dict_get]. destruct (String.eqb k' k) eqn:E; [|reflexivity].
    apply String.eqb_eq in E; subst. contradiction.
Qed.

(** [add_known_tweet] with a new tweet whose id is not yet known stores it as the last entry of [known_tweets]. *)
Theorem add_known_tweet_new (known : dict) (tweet_id : string) (nt : dict) :
  dict_get tweet_id known = None ->
  add_known_tweet known tweet_id (Some nt) = Some (known ++ [(tweet_id, JDict nt)])%list.
Proof. intros H. unfold add_known_tweet. rewrite H. now rewrite dict_set_new. Qed.

(** [add_known_tweet] with [None] marks a stored dict record with [api_returned_null = True] and keeps every other field of it; for an unknown id it stores the record [{id, id_str, api_returned_null = True}]; either way every other tweet is kept.  A stored value that is not a dict makes it raise a [TypeError]. *)
Theorem add_known_tweet_none (known : dict) (tweet_id : string) :
  match dict_get tweet_id known with
  | Some (JDict d) =>
      exists known' r, add_known_tweet known tweet_id None = Some known'
      /\ dict_get tweet_id known' = Some (JDict r)
      /\ dict_get "api_returned_null" r = Some (JBool true)
      /\ (forall x, x <> "api_returned_null" -> dict_get x r = dict_get x d)
      /\ (forall other, other <> tweet_id -> dict_get other known' = dict_get other known)
  | None =>
      exists known', add_known_tweet known tweet_id None = Some known'
      /\ dict_get tweet_id known'
         = Some (JDict [("id", JStr tweet_id); ("id_str", JStr tweet_id);
                        ("api_returned_null", JBool true)])
      /\ (forall other, other <> tweet_id -> dict_get other known' = dict_get other known)
  | Some _ => add_known_tweet known tweet_id None = None
  end.
Proof.
  unfold add_known_tweet. destruct (dict_get tweet_id known) as [v|] eqn:E.
  - destruct v; try reflexivity.
    eexists _, _. split; [reflexivity|]. split; [apply dict_get_set_same|].
    split; [apply dict_get_set_same|]. split.
    + intros x Hx. now apply dict_get_set_other.
    + intros o Ho. now apply dict_get_set_other.
  - eexists. split; [reflexivity|]. split; [apply dict_get_set_same|].
    intros o Ho. now apply dict_get_set_other.
Qed.

Lemma set_add_in (v : json) (ids ids' : list json) :
  set_add v ids = Some ids' -> forall i, In i ids' -> In i ids \/ i = v.
Proof.
  unfold set_add. intros H i Hi.
  destruct v; try discriminate; injection H as <-;
    (destruct (existsb _ ids); [now left|]);
    apply in_app_or in Hi as [Hi|[Hi|[]]]; auto.
Qed.

Lemma collect_quoted_in (known : dict) : forall urls ids ids',
  collect_quoted known urls ids = Some ids' ->
  forall i, In i ids' -> In i ids \/ known_has known i = Some false.
Proof.
  induction urls as [|url rest IH]; intros ids ids' H i Hi; cbn [collect_quoted] in H.
  - injection H as <-. now left.
  - repeat match type of H with
           | context [match ?c with _ => _ end] => destruct c eqn:?
           | context [if ?c then _ else _] => destruct c eqn:?
           end; try discriminate; try (eapply IH; eassumption).
    all: destruct (IH _ _ H i Hi) as [Hin|Hk]; [|now right].
    all: destruct (set_add_in _ _ _ ltac:(eassumption) i Hin) as [Hin2 | ->]; [now left|right].
    all: cbn [known_has]; congruence.
Qed.

Lemma add_own_id_in (t : dict) (ids ids' : list json) :
  add_own_id t ids = Some ids' -> forall i, In i ids' -> In i ids \/ own_id t i.
Proof.
  unfold add_own_id, own_id. intros H i Hi.
  destruct (dict_get "id_str" t) as [v|] eqn:E; [|discriminate].
  destruct v;
    try (destruct (set_add_in _ _ _ H i Hi) as [Hin| ->]; [now left | right; now left]).
  destruct (dict_get "id" t) as [w|] eqn:Ew; [|injection H as <-; now left].
  destruct (is_null w); [injection H as <-; now left|].
  destruct (py_str w) as [s|] eqn:Es; [|discriminate].
  destruct (set_add_in _ _ _ H i Hi) as [Hin| ->]; [now left|].
  right. right. split; [reflexivity|]. now exists w, s.
Qed.

(** Every id [collect_tweet_references] returns is either not a key of [known_tweets] or the tweet's own id. *)
Theorem collect_tweet_references_new_or_own (tweet : json) (known : dict) (ids : list json) :
  collect_tweet_references tweet known = Some ids ->
  forall i, In i ids ->
  known_has known i = Some false
  \/ exists t, unwrap_tweet tweet = JDict t /\ own_id t i.
Proof.
  unfold collect_tweet_references. intros H i Hi.
  destruct (unwrap_tweet tweet) as [| | | | |t] eqn:Eu; try discriminate.
  destruct (negb (dict_has "from_archive" t)); [injection H as <-; destruct Hi|].
  assert (Hown : forall l l', add_own_id t l = Some l' -> In i l' -> In i l \/ own_id t i)
    by (intros l l' Ha Hin; exact (add_own_id_in t l l' Ha i Hin)).
  repeat match type of H with
         | context [match ?c with _ => _ end] => destruct c eqn:?
         | context [if ?c then _ else _] => destruct c eqn:?
         end; try discriminate; injection H as <-.
  all: repeat match goal with
         | Hx : (if ?c then _ else _) = Some _ |- _ => destruct c eqn:?
         | Hx : (match ?c with _ => _ end) = Some _ |- _ => destruct c eqn:?
         | Hx : None = Some _ |- _ => discriminate Hx
         | Hx : Some _ = Some _ |- _ => injection Hx as Hx; subst
         end.
  all: repeat match goal with
         | Ha : add_own_id _ ?l = Some ?l', Hin : In ?x ?l' |- _ =>
             destruct (Hown _ _ Ha Hin) as [?|?]; [clear Ha Hin|right; eexists; split; [reflexivity|assumption]]
         | Hs : set_add ?v ?l = Some ?l', Hin : In ?x ?l' |- _ =>
             destruct (set_add_in _ _ _ Hs _ Hin) as [?| ->]; [clear Hs Hin|left; congruence]
         | Hq : collect_quoted _ ?u [] = Some ?l', Hin : In ?x ?l' |- _ =>
             destruct (collect_quoted_in _ _ _ _ Hq _ Hin) as [[]|?]; [now left]
         | Hin : In _ [] |- _ => destruct Hin
         end.
Qed.


Lemma string_app_cancel_l (d x y : string) : d ++ x = d ++ y -> x = y.
Proof. induction d as [|c d IH]; cbn; [auto | intros H; injection H as H; auto]. Qed.

Lemma path_join_cons_inj (d : string) (c : ascii) (f1 f2 : string) :
  path_join d (String c f1) = path_join d (String c f2) -> f1 = f2.
Proof.
  unfold path_join. intros H.
  destruct d as [|cd d']; [|destruct (ends_with_slash (String cd d'))];
  destruct c as [[] [] [] [] [] [] [] []];
  cbn in H; try (injection H as H; exact H);
  injection H as H; apply string_app_cancel_l in H; repeat (injection H as H); exact H.
Qed.

Lemma str_int_digits (n : Z) : (0 <= n)%Z ->
  str_int n <> EmptyString /\ all_digits (str_int n) = true
  /\ forall a, int_of_digits_acc a (str_int n) = (a * 10 ^ Z.of_nat (String.length (str_int n)) + n)%Z.
Proof.
  intros Hn. destruct n as [|p|p]; [| | lia].
  - unfold str_int; cbn. repeat split; try discriminate; intros a; lia.
  - destruct (digits_of_pos_spec (Pos.size_nat p) p EmptyString (size_nat_bound p))
      as (D & HD & Hne & Hall & Hint).
    rewrite string_app_nil_r in HD.
    unfold str_int. cbn [py_str]. rewrite HD. auto.
Qed.

Lemma int_of_digits_acc_zeros (a : Z) (k : nat) (s : string) :
  int_of_digits_acc a (zeros k ++ s) = int_of_digits_acc (a * 10 ^ Z.of_nat k) s.
Proof.
  revert a. induction k as [|k IH]; intros a; cbn [zeros].
  - cbn. now rewrite Z.mul_1_r.
  - cbn [append int_of_digits_acc]. rewrite IH. f_equal.
    change (nat_of_ascii "0" - 48) with 0. rewrite Nat2Z.inj_succ, Z.pow_succ_r by lia. lia.
Qed.

Lemma all_digits_zeros (k : nat) : all_digits (zeros k) = true.
Proof. induction k; cbn; auto. Qed.

Lemma format_int_width_digits (w : nat) (n : Z) : (0 <= n)%Z ->
  all_digits (format_int_width w n) = true /\ int_of_digits (format_int_width w n) = n.
Proof.
  intros Hn. unfold format_int_width.
  replace (n <? 0)%Z with false by (symmetry; apply Z.ltb_ge; lia).
  destruct (str_int_digits n Hn) as (_ & Hall & Hint).
  split.
  - now rewrite all_digits_app, all_digits_zeros, Hall.
  - unfold int_of_digits. rewrite int_of_digits_acc_zeros, Hint. lia.
Qed.

Lemma digits_sep (D1 D2 X Y : string) (c : ascii) :
  all_digits D1 = true -> all_digits D2 = true -> is_digit c = false ->
  D1 ++ String c X = D2 ++ String c Y -> D1 = D2.
Proof.
  revert D2. induction D1 as [|c1 D1 IH]; intros D2 H1 H2 Hc H; destruct D2 as [|c2 D2];
    cbn [append] in H; auto.
  - injection H as <- _. cbn in H2. rewrite Hc in H2. discriminate.
  - injection H as -> _. cbn in H1. rewrite Hc in H1. discriminate.
  - injection H as <- H. cbn in H1, H2.
    apply andb_true_iff in H1 as [_ H1]. apply andb_true_iff in H2 as [_ H2].
    f_equal. eauto.
Qed.

Lemma path_join_prefix_inj (d q x y : string) :
  q <> EmptyString -> path_join d (q ++ x) = path_join d (q ++ y) -> x = y.
Proof.
  destruct q as [|c q]; [contradiction|]. cbn [append]. intros _ H.
  apply path_join_cons_inj in H. now apply string_app_cancel_l in H.
Qed.

(** The DM file paths of parts [i, j >= 1] of one conversation differ when [i <> j]; index [0] gives the path of [None]; and the path of part [i] equals the unnumbered path of the name extended by ['-part'] and the three-digit index. *)
Theorem create_path_for_file_output_dms_parts (dir_output name output_format kind : string) :
  (forall i j, (1 <= i)%Z -> (1 <= j)%Z ->
     create_path_for_file_output_dms dir_output name (Some i) output_format kind
     = create_path_for_file_output_dms dir_output name (Some j) output_format kind -> i = j)
  /\ create_path_for_file_output_dms dir_output name (Some 0%Z) output_format kind
     = create_path_for_file_output_dms dir_output name None output_format kind
  /\ (forall i, i <> 0%Z ->
     create_path_for_file_output_dms dir_output (name ++ "-part" ++ format_int_width 3 i) None
       output_format kind
     = create_path_for_file_output_dms dir_output name (Some i) output_format kind).
Proof.
  unfold create_path_for_file_output_dms. split; [|split].
  - intros i j Hi Hj H.
    replace (i =? 0)%Z with false in H by (symmetry; apply Z.eqb_neq; lia).
    replace (j =? 0)%Z with false in H by (symmetry; apply Z.eqb_neq; lia).
    assert (Hq : path_join (path_join dir_output kind)
                   ((kind ++ "-" ++ name ++ "-part") ++ (format_int_width 3 i ++ "." ++ output_format))
                 = path_join (path_join dir_output kind)
                   ((kind ++ "-" ++ name ++ "-part") ++ (format_int_width 3 j ++ "." ++ output_format)))
      by (rewrite <- !string_app_assoc; exact H).
    apply path_join_prefix_inj in Hq; [|destruct kind; discriminate].
    clear H. rename Hq into H.
    destruct (format_int_width_digits 3 i ltac:(lia)) as [Hai Hii].
    destruct (format_int_width_digits 3 j ltac:(lia)) as [Haj Hij].
    apply digits_sep in H; [|assumption|assumption|reflexivity].
    rewrite <- Hii, <- Hij, H. reflexivity.
  - reflexivity.
  - intros i Hi. replace (i =? 0)%Z with false by (symmetry; now apply Z.eqb_neq).
    now rewrite <- !string_app_assoc.
Qed.

Lemma make_safe_loop_flat (acc s : list Z) :
  make_safe_loop acc s = (acc ++ flat_map safe_char_out s)%list.
Proof.
  revert acc. induction s as [|c s IH]; intros acc; cbn [make_safe_loop flat_map].
  - now rewrite app_nil_r.
  - unfold safe_char_out.
    destruct (existsb (Z.eqb c) forbidden_chars), (py_isspace c),
      (false || ((c <=? 31) && (0 <=? c)))%Z; rewrite IH; cbn;
      now rewrite <- ?app_assoc.
Qed.

Lemma safe_char_out_ok (c d : Z) : In d (safe_char_out c) -> safe_ok d = true.
Proof.
  unfold safe_char_out.
  destruct (existsb (Z.eqb c) forbidden_chars) eqn:E1, (py_isspace c) eqn:E2,
    (false || ((c <=? 31) && (0 <=? c)))%Z eqn:E3;
    intros Hd; simpl in Hd; try contradiction; destruct Hd as [<-|[]]; try reflexivity.
  unfold safe_ok. rewrite E1, E2. simpl in E3 |- *. now rewrite E3.
Qed.

Lemma safe_char_out_fixed (c : Z) : safe_ok c = true -> safe_char_out c = [c].
Proof.
  unfold safe_ok, safe_char_out. intros H.
  apply andb_true_iff in H as [H H3]. apply andb_true_iff in H as [H1 H2].
  apply negb_true_iff in H1, H2, H3. now rewrite H1, H2, H3.
Qed.

Lemma flat_map_safe_fixed (s : list Z) :
  forallb safe_ok s = true -> flat_map safe_char_out s = s.
Proof.
  induction s as [|c s IH]; cbn; [reflexivity|].
  intros H. apply andb_true_iff in H as [H1 H2].
  rewrite safe_char_out_fixed by exact H1. cbn. now rewrite IH.
Qed.

Lemma make_conversation_name_safe_flat (s : list Z) :
  make_conversation_name_safe_for_filename s = flat_map safe_char_out s.
Proof. unfold make_conversation_name_safe_for_filename. now rewrite make_safe_loop_flat. Qed.

(** [make_conversation_name_safe_for_filename] returns no forbidden character, no whitespace and no code point 0 to 31; applying it twice gives the same as once; it never makes the name longer; and it keeps every other character of the input, DEL (127) included. *)
Theorem make_conversation_name_safe_for_filename_props (s : list Z) :
  let out := make_conversation_name_safe_for_filename s in
  (forall c, In c out ->
     existsb (Z.eqb c) forbidden_chars = false /\ py_isspace c = false /\ ~ (0 <= c <= 31)%Z)
  /\ make_conversation_name_safe_for_filename out = out
  /\ (length out <= length s)%nat
  /\ (forall c, In c s -> safe_ok c = true -> In c out).
Proof.
  cbn zeta. rewrite !make_conversation_name_safe_flat.
  assert (Hok : forall c, In c (flat_map safe_char_out s) -> safe_ok c = true).
  { intros c Hc. apply in_flat_map in Hc as [x [_ Hx]]. exact (safe_char_out_ok x c Hx). }
  split; [|split; [|split]].
  - intros c Hc. specialize (Hok c Hc). unfold safe_ok in Hok.
    apply andb_true_iff in Hok as [H H3]. apply andb_true_iff in H as [H1 H2].
    apply negb_true_iff in H1, H2, H3. split; [exact H1|split; [exact H2|]].
    intros [Ha Hb]. apply Z.leb_le in Ha, Hb. rewrite Ha, Hb in H3. discriminate.
  - apply flat_map_safe_fixed, forallb_forall. exact Hok.
  - clear Hok. induction s as [|c s IH]; cbn; [lia|].
    rewrite length_app. assert (length (safe_char_out c) <= 1)%nat.
    { unfold safe_char_out. destruct (existsb (Z.eqb c) forbidden_chars), (py_isspace c),
        (false || ((c <=? 31) && (0 <=? c)))%Z; cbn; lia. }
    lia.
  - intros c Hc Hc'. apply in_flat_map. exists c. split; [exact Hc|].
    rewrite safe_char_out_fixed by exact Hc'. now left.
Qed.

Lemma users_set_new k v users : users_has k users = false -> users_set k v users = (users ++ [(k, v)])%list.
Proof.
  induction users as [|[k' v'] rest IH]; cbn; [reflexivity|].
  intros H. apply orb_false_iff in H as [H1 H2].
  rewrite String.eqb_sym, H1. now rewrite IH.
Qed.

Lemma fresh_entries_app users a1 a2 :
  fresh_entries users a1 -> fresh_entries (users ++ a1)%list a2 -> fresh_entries users (a1 ++ a2)%list.
Proof.
  revert users. induction a1 as [|[k u] a1 IH]; intros users; cbn.
  - now rewrite app_nil_r.
  - intros (H1 & H2 & H3 & H4 & H5) H6. repeat split; try assumption.
    apply IH; [exact H5|]. now rewrite <- app_assoc.
Qed.

Lemma grows_refl users : grows users users.
Proof. exists []. split; [now rewrite app_nil_r | exact I]. Qed.

Lemma grows_trans u1 u2 u3 : grows u1 u2 -> grows u2 u3 -> grows u1 u3.
Proof.
  intros [a1 [-> F1]] [a2 [-> F2]]. exists (a1 ++ a2)%list.
  split; [now rewrite app_assoc | now apply fresh_entries_app].
Qed.

Lemma add_connection_grows i h n users users' :
  py_int i = Some n -> (0 <= n)%Z -> add_connection i h users = Some users' -> grows users users'.
Proof.
  unfold add_connection. intros Hi Hn.
  destruct (py_str i) as [key|] eqn:Ek; [|discriminate].
  destruct (users_has key users) eqn:Eh.
  - injection 1 as <-. apply grows_refl.
  - unfold UserData_new. destruct (is_null i); [discriminate|]. rewrite Ek.
    destruct (is_null h) eqn:En; [discriminate|]. injection 1 as <-.
    rewrite users_set_new by exact Eh. exists [(key, mkUserData key h)].
    split; [reflexivity|]. cbn. repeat split; try assumption.
    + intros ->. discriminate.
    + exists i, n. auto.
Qed.

Lemma add_reply_connection_grows tweet users users' :
  add_reply_connection tweet users = Some users' -> grows users users'.
Proof.
  unfold add_reply_connection.
  destruct (dict_get "in_reply_to_user_id" tweet) as [r|], (dict_get "in_reply_to_screen_name" tweet) as [sn|];
    try (injection 1 as <-; apply grows_refl).
  destruct (is_null sn); [injection 1 as <-; apply grows_refl|].
  destruct (py_int r) as [n|] eqn:En; [|discriminate].
  destruct (0 <=? n)%Z eqn:Hn; [|injection 1 as <-; apply grows_refl].
  apply Z.leb_le in Hn. now apply add_connection_grows with n.
Qed.

Lemma mention_connection_grows m users users' :
  mention_connection m users = Some users' -> grows users users'.
Proof.
  unfold mention_connection.
  destruct (is_null m); [injection 1 as <-; apply grows_refl|].
  destruct (py_in "id" m) as [[]|]; [|injection 1 as <-; apply grows_refl|discriminate].
  destruct (py_in "screen_name" m) as [[]|]; [|injection 1 as <-; apply grows_refl|discriminate].
  destruct (py_index m "id") as [i|]; [|discriminate].
  destruct (py_int i) as [n|] eqn:En; [|discriminate].
  destruct (0 <=? n)%Z eqn:Hn; [|injection 1 as <-; apply grows_refl].
  apply Z.leb_le in Hn.
  destruct (py_index m "screen_name") as [h|]; [|discriminate].
  destruct (is_null h); [injection 1 as <-; apply grows_refl|].
  now apply add_connection_grows with n.
Qed.

Lemma mention_connections_grows ms users users' :
  mention_connections ms users = Some users' -> grows users users'.
Proof.
  revert users. induction ms as [|m ms IH]; intros users; cbn.
  - injection 1 as <-. apply grows_refl.
  - destruct (mention_connection m users) as [u|] eqn:E; [|discriminate].
    intros H. apply grows_trans with u; [now apply mention_connection_grows with m | now apply IH].
Qed.

Lemma fresh_entries_nodup users added :
  fresh_entries users added -> NoDup (map fst users) -> NoDup (map fst (users ++ added)).
Proof.
  revert users. induction added as [|[k u] added IH]; intros users; cbn.
  - now rewrite app_nil_r.
  - intros (H1 & _ & _ & _ & H5) Hn. replace (users ++ (k, u) :: added)%list with ((users ++ [(k, u)]) ++ added)%list
      by now rewrite <- app_assoc.
    apply IH; [exact H5|]. rewrite map_app. cbn.
    apply NoDup_app; [exact Hn | constructor; [intros []|constructor] |].
    
    intros x Hx [<-|[]]. assert (existsb (fun kv => String.eqb (fst kv) (fst (k, u))) users = true).
    { apply existsb_exists. apply in_map_iff in Hx as [[x' y] [Ex Hx]]. exists (x', y).
      split; [exact Hx|]. cbn in *. subst. apply String.eqb_refl. }
    unfold users_has in H1. cbn in H. congruence.
Qed.

(** [collect_user_connections_from_tweet] only appends to [users]: the existing entries stay as they are, each added key is new, is [str(id)] of an id with [int(id) >= 0], and holds that [user_id] and a handle that is not [None]; distinct keys stay distinct. *)
Theorem collect_user_connections_from_tweet_grows tweet users users' :
  collect_user_connections_from_tweet tweet users = Some users' ->
  exists added, users' = (users ++ added)%list /\ fresh_entries users added
    /\ (NoDup (map fst users) -> NoDup (map fst users')).
Proof.
  intros H. enough (G : grows users users').
  { destruct G as [added [E F]]. exists added. repeat split; [exact E|exact F|].
    subst. now apply fresh_entries_nodup. }
  unfold collect_user_connections_from_tweet in H.
  destruct (add_reply_connection tweet users) as [u|] eqn:E1; [|discriminate].
  apply grows_trans with u; [now apply add_reply_connection_grows with tweet|].
  destruct (dict_get "entities" tweet) as [ent|]; [|injection H as <-; apply grows_refl].
  destruct (py_in "user_mentions" ent) as [[]|]; [|injection H as <-; apply grows_refl|discriminate].
  destruct (py_index ent "user_mentions") as [um|]; [|discriminate].
  destruct (is_null um); [injection H as <-; apply grows_refl|].
  destruct (py_iter um) as [ms|]; [|discriminate].
  now apply mention_connections_grows with ms.
Qed.

Lemma py_split_length sep s : length (py_split sep s) = S (count_char sep s).
Proof.
  induction s as [|c s IH]; cbn; [reflexivity|].
  destruct (Ascii.eqb c sep); cbn; [now rewrite IH|].
  destruct (py_split sep s); cbn in *; [discriminate|]. exact IH.
Qed.

Lemma py_split_single sep s p : py_split sep s = [p] -> s = p /\ count_char sep s = O.
Proof.
  revert p. induction s as [|c s IH]; intros p H; cbn in *.
  - injection H as <-. auto.
  - pose proof (py_split_length sep s) as L.
    destruct (Ascii.eqb c sep) eqn:Ec.
    + injection H as _ H. rewrite H in L. discriminate.
    + destruct (py_split sep s) as [|p' ps] eqn:E; [discriminate|].
      injection H as <- ->. destruct (IH p' eq_refl) as [-> Hc]. auto.
Qed.

Lemma py_split_concat sep s a b :
  py_split sep s = [a; b] -> s = (a ++ String sep b)%string /\ count_char sep a = O /\ count_char sep b = O.
Proof.
  revert a. induction s as [|c s IH]; intros a H; cbn in *; [discriminate|].
  destruct (Ascii.eqb c sep) eqn:Ec.
  - apply Ascii.eqb_eq in Ec. subst c. injection H as <- H.
    destruct (py_split_single sep s b H) as [-> Hb]. auto.
  - destruct (py_split sep s) as [|p ps] eqn:E; [discriminate|].
    injection H as <- ->. destruct (IH p eq_refl) as (-> & Hp & Hb). cbn. rewrite Ec. auto.
Qed.

Lemma set_add_str a ids :
  exists ids', set_add (JStr a) ids = Some ids' /\ In (JStr a) ids' /\ (forall i, In i ids -> In i ids').
Proof.
  unfold set_add. destruct (existsb (py_eq (JStr a)) ids) eqn:E; eexists; (split; [reflexivity|]).
  - split; [|auto]. apply existsb_exists in E as [x [Hx Ex]].
    destruct x; cbn in Ex; try discriminate. apply String.eqb_eq in Ex. now subst.
  - split; [apply in_or_app; right; now left|]. intros i Hi. apply in_or_app. now left.
Qed.

Lemma dm_conversation_ids_mono conv ids ids' :
  dm_conversation_ids conv ids = Some ids' -> forall i, In i ids -> In i ids'.
Proof.
  unfold dm_conversation_ids.
  destruct (py_in "dmConversation" conv) as [[]|]; [|now injection 1 as <-|discriminate].
  destruct (option_bind (py_in "conversationId") (py_index conv "dmConversation")) as [[]|];
    [|now injection 1 as <-|discriminate].
  destruct (option_bind _ (py_index conv "dmConversation")) as [[| | | s | |]|]; try discriminate.
  destruct (py_split "-" s) as [|u1 [|u2 [|]]]; try discriminate.
  destruct (set_add_str u1 ids) as (i1 & -> & _ & M1). cbn [option_bind].
  destruct (set_add_str u2 i1) as (i2 & -> & _ & M2). injection 1 as <-. auto.
Qed.

Lemma dm_conversations_loop_mono convs ids ids' :
  dm_conversations_loop convs ids = Some ids' -> forall i, In i ids -> In i ids'.
Proof.
  revert ids. induction convs as [|c convs IH]; intros ids; cbn; [now injection 1 as <-|].
  destruct (dm_conversation_ids c ids) as [m|] eqn:E; [|discriminate].
  intros H i Hi. apply (IH m H). exact (dm_conversation_ids_mono c ids m E i Hi).
Qed.

Lemma dm_conversation_ids_archive conv s ids :
  archive_conversation_id conv = Some s ->
  dm_conversation_ids conv ids =
    match py_split "-" s with
    | [user1_id; user2_id] => option_bind (set_add (JStr user2_id)) (set_add (JStr user1_id) ids)
    | _ => None
    end.
Proof.
  unfold archive_conversation_id.
  destruct conv as [| | | | |c]; try discriminate.
  destruct (dict_get "dmConversation" c) as [[| | | | |d]|] eqn:E1; try discriminate.
  destruct (dict_get "conversationId" d) as [[| | | t | |]|] eqn:E2; try discriminate.
  injection 1 as <-. unfold dm_conversation_ids, py_in, py_index, option_bind, dict_has.
  rewrite E1, E2. reflexivity.
Qed.

(** When [collect_user_ids_from_direct_messages] returns, every archive conversation id it read has the form [a-b] with no further ['-'], and both [a] and [b] are in the result. *)
Theorem collect_user_ids_from_direct_messages_split convs ids :
  collect_user_ids_from_direct_messages (JList convs) = Some ids ->
  forall conv s, In conv convs -> archive_conversation_id conv = Some s ->
  exists user1_id user2_id, s = (user1_id ++ String "-" user2_id)%string
    /\ count_char "-" user1_id = O /\ count_char "-" user2_id = O
    /\ In (JStr user1_id) ids /\ In (JStr user2_id) ids.
Proof.
  cbn. generalize (@nil json) as acc. induction convs as [|c convs IH]; intros acc H conv s Hin Hid;
    [destruct Hin|]. cbn in H.
  destruct (dm_conversation_ids c acc) as [m|] eqn:E; [|discriminate].
  destruct Hin as [->|Hin]; [|exact (IH m H conv s Hin Hid)].
  rewrite (dm_conversation_ids_archive conv s acc Hid) in E.
  destruct (py_split "-" s) as [|u1 [|u2 [|]]] eqn:Es; try discriminate.
  destruct (py_split_concat "-" s u1 u2 Es) as (-> & H1 & H2).
  exists u1, u2. repeat split; try assumption.
  - destruct (set_add_str u1 acc) as (i1 & E1 & In1 & M1). rewrite E1 in E. cbn [option_bind] in E.
    destruct (set_add_str u2 i1) as (i2 & E2 & In2 & M2). rewrite E2 in E. injection E as <-.
    exact (dm_conversations_loop_mono convs i2 ids H _ (M2 _ In1)).
  - destruct (set_add_str u1 acc) as (i1 & E1 & In1 & M1). rewrite E1 in E. cbn [option_bind] in E.
    destruct (set_add_str u2 i1) as (i2 & E2 & In2 & M2). rewrite E2 in E. injection E as <-.
    exact (dm_conversations_loop_mono convs i2 ids H _ In2).
Qed.

(** For archive conversations that all carry a string [conversationId], [collect_user_ids_from_direct_messages] returns exactly when every id holds exactly one ['-']; otherwise the unpacking raises a [ValueError]. *)
Theorem collect_user_ids_from_direct_messages_value_error convs :
  (forall conv, In conv convs -> exists s, archive_conversation_id conv = Some s) ->
  (collect_user_ids_from_direct_messages (JList convs) <> None <->
   forall conv s, In conv convs -> archive_conversation_id conv = Some s -> count_char "-" s = 1%nat).
Proof.
  intros Hall. cbn. generalize (@nil json) as acc.
  induction convs as [|c convs IH]; intros acc; cbn.
  - split; [intros _ conv s []|discriminate].
  - destruct (Hall c (or_introl eq_refl)) as [s Hs].
    assert (Hall' : forall conv, In conv convs -> exists s, archive_conversation_id conv = Some s)
      by (intros conv Hc; apply Hall; now right).
    rewrite (dm_conversation_ids_archive c s acc Hs).
    pose proof (py_split_length "-" s) as L.
    destruct (py_split "-" s) as [|u1 [|u2 [|u3 r]]] eqn:Es; cbn in L; try discriminate.
    + split; [intros N; now contradiction N|]. intros H. specialize (H c s (or_introl eq_refl) Hs). lia.
    + destruct (set_add_str u1 acc) as (i1 & -> & _). cbn [option_bind].
      destruct (set_add_str u2 i1) as (i2 & -> & _).
      rewrite (IH Hall' i2). split.
      * intros H conv t [<-|Hin] Ht; [congruence|]. exact (H conv t Hin Ht).
      * intros H conv t Hin Ht. exact (H conv t (or_intror Hin) Ht).
    + split; [intros N; now contradiction N|]. intros H. specialize (H c s (or_introl eq_refl) Hs). lia.
Qed.

Module UserIdParserFacts.
Import UserIdParser.

Lemma users_update_keys k f users : map fst (users_update k f users) = map fst users.
Proof.
  induction users as [|[k' u] rest IH]; cbn; [reflexivity|].
  destruct (py_eq k' k); cbn; [reflexivity|]. now rewrite IH.
Qed.

Lemma users_update_length k f users : length (users_update k f users) = length users.
Proof. rewrite <- !(length_map fst). now rewrite users_update_keys. Qed.

Lemma users_get_update_other k0 f k u0 u users :
  users_get k0 users = Some u0 -> handle u0 = JNull ->
  users_get k users = Some u -> handle u <> JNull ->
  users_get k (users_update k0 f users) = Some u.
Proof.
  induction users as [|[k' u'] rest IH]; cbn; [discriminate|].
  intros H0 Hn0 H Hn. destruct (py_eq k' k0) eqn:E0.
  - injection H0 as <-. cbn. destruct (py_eq k' k); [injection H as <-; congruence|exact H].
  - cbn. destruct (py_eq k' k); [exact H|]. now apply IH.
Qed.

Lemma users_get_app k u users extra :
  users_get k users = Some u -> users_get k (users ++ extra)%list = Some u.
Proof.
  induction users as [|[k' u'] rest IH]; cbn; [discriminate|].
  destruct (py_eq k' k); [auto|exact IH].
Qed.

Lemma mention_step_inv m users cn ca cs users' cn' ca' cs' :
  mention_step m (users, cn, ca, cs) = Some (users', cn', ca', cs') ->
  ((cn' = S cn /\ ca' = ca /\ cs' = cs) \/ (cn' = cn /\ ca' = S ca /\ cs' = cs)
   \/ (cn' = cn /\ ca' = ca /\ cs' = S cs))%nat
  /\ length users' = length users + (cn' - cn)
  /\ (exists added, map fst users' = map fst users ++ added)%list
  /\ (forall k u, users_get k users = Some u -> handle u <> JNull -> users_get k users' = Some u).
Proof.
  cbn -[users_get users_update].
  destruct (py_index m "id") as [i|]; [|discriminate].
  destruct (py_index m "name") as [nm|]; [|discriminate].
  destruct (py_index m "screen_name") as [h|]; [|discriminate].
  destruct (negb (is_hashable i)); [discriminate|].
  destruct (users_get i users) as [u0|] eqn:Eg.
  - destruct (is_null (handle u0)) eqn:En; injection 1 as <- <- <- <-.
    + split; [right; left; auto|]. split; [|split].
      * rewrite users_update_length. lia.
      * exists []. now rewrite users_update_keys, app_nil_r.
      * intros k u Hk Hu. apply users_get_update_other with u0; try assumption.
        destruct (handle u0); try discriminate. reflexivity.
    + split; [right; right; auto|]. split; [lia|]. split; [|auto].
      exists []. now rewrite app_nil_r.
  - injection 1 as <- <- <- <-. split; [left; auto|]. split; [|split].
    + rewrite length_app. cbn [length]. lia.
    + eexists. now rewrite map_app.
    + intros k u Hk _. now apply users_get_app.
Qed.

(** In the mention loop, each mention adds 1 to exactly one of the three counters (new users, names added, skipped duplicates); over the loop each counter only grows and their sum grows by the number of mentions; [users] grows by exactly the new-user count, its keys keep their order, and a user whose handle is set is never changed. *)
Theorem mentions_loop_invariants :
  (forall m users cn ca cs users' cn' ca' cs',
     mention_step m (users, cn, ca, cs) = Some (users', cn', ca', cs') ->
     (cn' = S cn /\ ca' = ca /\ cs' = cs) \/ (cn' = cn /\ ca' = S ca /\ cs' = cs)
     \/ (cn' = cn /\ ca' = ca /\ cs' = S cs))%nat
  /\ (forall ms users cn ca cs users' cn' ca' cs',
     mentions_loop ms (users, cn, ca, cs) = Some (users', cn', ca', cs') ->
     (cn' + ca' + cs' = cn + ca + cs + length ms)%nat
     /\ (cn <= cn' /\ ca <= ca' /\ cs <= cs')%nat
     /\ length users' = length users + (cn' - cn)
     /\ (exists added, map fst users' = map fst users ++ added)%list
     /\ (forall k u, users_get k users = Some u -> handle u <> JNull -> users_get k users' = Some u)).
Proof.
  split.
  - intros m users cn ca cs users' cn' ca' cs' H. exact (proj1 (mention_step_inv _ _ _ _ _ _ _ _ _ H)).
  - intros ms. induction ms as [|m ms IH]; intros users cn ca cs users' cn' ca' cs'; cbn [mentions_loop].
    + injection 1 as <- <- <- <-. cbn. split; [lia|]. split; [lia|]. split; [lia|].
      split; [|auto]. exists []. now rewrite app_nil_r.
    + destruct (mention_step m (users, cn, ca, cs)) as [[[[u1 n1] a1] s1]|] eqn:E; [|discriminate].
      intros H. destruct (mention_step_inv _ _ _ _ _ _ _ _ _ E) as (S1 & L1 & [ad1 K1] & G1).
      destruct (IH _ _ _ _ _ _ _ _ H) as (C2 & M2 & L2 & [ad2 K2] & G2).
      cbn [length]. split; [lia|]. split; [lia|]. split; [lia|]. split.
      * exists (ad1 ++ ad2)%list. now rewrite K2, K1, app_assoc.
      * intros k u Hk Hu. apply G2; [now apply G1|exact Hu].
Qed.

End UserIdParserFacts.

Lemma dict_set6_other k egg a b c d e f :
  ~ In k egg_user_fields ->
  dict_get k (dict_set "user_profile_url" f (dict_set "profile_image_url_https" e
    (dict_set "user_id_str" d (dict_set "user_name" c (dict_set "user_description" b
      (dict_set "user_screen_name" a egg)))))) = dict_get k egg.
Proof.
  intros H. cbn in H.
  rewrite !dict_get_set_other; try reflexivity; intros ->; apply H; tauto.
Qed.

(** [add_user_metadata_to_egg] sets the six user fields of the egg and leaves every other field unchanged. *)
Theorem add_user_metadata_to_egg_frame egg users ext sfx egg' :
  add_user_metadata_to_egg egg users ext sfx = Some egg' ->
  (forall k, In k egg_user_fields -> dict_has k egg' = true)
  /\ (forall k, ~ In k egg_user_fields -> dict_get k egg' = dict_get k egg).
Proof.
  unfold add_user_metadata_to_egg.
  destruct (dict_get "user_id" egg) as [uid|]; [|discriminate].
  intros H. cbv zeta in H.
  lazymatch type of H with
  | (match ?F with None => _ | Some _ => _ end) = _ =>
      destruct F as [[[[[[a b] c] d] e] f]|]; [|discriminate]
  end.
  injection H as <-. split.
  - intros k Hk. unfold dict_has.
    cbn in Hk. repeat destruct Hk as [<-|Hk]; try destruct Hk;
      repeat first [rewrite dict_get_set_same; reflexivity
                   | rewrite dict_get_set_other by discriminate].
  - exact (fun k Hk => dict_set6_other k egg a b c d e (JStr f) Hk).
Qed.

(** The egg returned, and the six fields read off it after the [dict_set]s. *)
Ltac egg_fields :=
  eexists; split; [reflexivity|];
  repeat split;
  repeat first [rewrite dict_get_set_same; reflexivity
               | rewrite dict_get_set_other by discriminate].

(** A user id known only from [users] gets the literal name ['(unknown / @{user.handle})'] (the string has no f prefix) and a profile url built from its handle; an unknown user id, and every int user id, gets ['unknown_user'] and the url [https://twitter.com/i/user/<id>]. *)
Theorem add_user_metadata_to_egg_unknown egg users ext sfx :
  (forall uid, dict_get "user_id" egg = Some (JStr uid) ->
     dict_get uid ext = None ->
     (forall u sn, users_get uid users = Some u -> py_str (handle u) = Some sn ->
        exists egg', add_user_metadata_to_egg egg users ext sfx = Some egg'
          /\ dict_get "user_screen_name" egg' = Some (handle u)
          /\ dict_get "user_name" egg' = Some (JStr "(unknown / @{user.handle})")
          /\ dict_get "user_profile_url" egg' = Some (JStr ("https://twitter.com/" ++ sn)))
     /\ (users_get uid users = None ->
        exists egg', add_user_metadata_to_egg egg users ext sfx = Some egg'
          /\ dict_get "user_screen_name" egg' = Some (JStr "unknown_user")
          /\ dict_get "user_name" egg' = Some (JStr "(unknown)")
          /\ dict_get "user_profile_url" egg' = Some (JStr ("https://twitter.com/i/user/" ++ uid))))
  /\ (forall n s, dict_get "user_id" egg = Some (JInt n) -> py_str (JInt n) = Some s ->
        exists egg', add_user_metadata_to_egg egg users ext sfx = Some egg'
          /\ dict_get "user_screen_name" egg' = Some (JStr "unknown_user")
          /\ dict_get "user_id_str" egg' = Some (JStr s)
          /\ dict_get "user_profile_url" egg' = Some (JStr ("https://twitter.com/i/user/" ++ s))).
Proof.
  unfold add_user_metadata_to_egg. split.
  - intros uid Hu He. rewrite Hu. cbn [known_has]. unfold dict_has. rewrite He. split.
    + intros u sn Hg Hs. rewrite Hg. cbn [py_str]. rewrite Hs. egg_fields.
    + intros Hg. rewrite Hg. cbn [py_str]. egg_fields.
  - intros n s Hu Hs. rewrite Hu. cbn [known_has]. rewrite Hs. egg_fields.
Qed.

Lemma scan_a_length md ib la : length (fst (fst (scan_a md ib la))) = length la.
Proof.
  induction la as [|ia r IH]; cbn; [reflexivity|].
  destruct (equal_ignore_types ia ib) as [[]|]; cbn; try reflexivity.
  destruct (is_dict ia && is_dict ib && has_id_str ia && has_id_str ib && py_eq (id_str_of ia) (id_str_of ib)).
  - destruct (md ia ib) as [ia' [e|]]; cbn; [reflexivity|].
    destruct (scan_a md ib r) as [[r' f] e']. cbn in *. now rewrite IH.
  - destruct (scan_a md ib r) as [[r' f] e']. cbn in *. now rewrite IH.
Qed.

(** [merge_lists] never removes an item of [a]: the result has at least the items of [a] and at most one more per item of [b]. *)
Theorem merge_lists_length md la lb :
  (length la <= length (fst (merge_lists md la lb)) <= length la + length lb)%nat.
Proof.
  revert la. induction lb as [|ib lb IH]; intros la; cbn; [lia|].
  pose proof (scan_a_length md ib la) as L.
  destruct (scan_a md ib la) as [[la' found] [e|]]; cbn in *; [lia|].
  specialize (IH (if found then la' else (la' ++ [ib])%list)).
  destruct found; rewrite ?length_app in IH; cbn in IH; lia.
Qed.

(** [has_path] along [p ++ q] is [has_path] along [q] from the value reached along [p]; it is [False] when a step of [p] is missing or [None], and it raises when the walk along [p] raises. *)
Theorem has_path_app root p q :
  has_path root (p ++ q)
  = match follow_path root p with
    | Some (Some v) => has_path v q
    | Some None => Some false
    | None => None
    end.
Proof.
  revert root. induction p as [|k p IH]; intros root; cbn; [reflexivity|].
  destruct (py_in k root) as [[]|]; try reflexivity.
  destruct (py_index root k) as [v|]; [|reflexivity].
  destruct (is_null v); [reflexivity|]. apply IH.
Qed.

Lemma equal_ignore_types_numbers_witness :
  parse_as_number (JStr "007") = Some (JInt 7) /\ parse_as_number (JInt 7) = Some (JInt 7)
  /\ equal_ignore_types (JStr "007") (JInt 7) = Some true.
Proof.
  split; [reflexivity|split; [reflexivity|]].
  exact (equal_ignore_types_numbers (JStr "007") (JInt 7) (JInt 7) (JInt 7) eq_refl eq_refl).
Defined.

Lemma equal_ignore_types_key_error_witness :
  equal_ignore_types (JDict [("a", JInt 1)]) (JDict [("b", JInt 1)]) = None.
Proof. apply (equal_ignore_types_key_error "a" (JInt 1) [] [("b", JInt 1)]); reflexivity. Defined.

Lemma merge_dicts_fresh_keys_witness :
  merge_dicts [] [("x", JInt 1)] (JDict [("y", JInt 2); ("z", JNull)])
  = ([("x", JInt 1); ("y", JInt 2); ("z", JNull)], None).
Proof.
  apply (merge_dicts_fresh_keys [] [("x", JInt 1)] [("y", JInt 2); ("z", JNull)]).
  - intros k [<-|[<-|[]]]; reflexivity.
  - repeat constructor; cbn; intuition discriminate.
Defined.

Lemma add_known_tweet_new_witness :
  add_known_tweet [("1", JDict [])] "2" (Some [("id_str", JStr "2")])
  = Some [("1", JDict []); ("2", JDict [("id_str", JStr "2")])].
Proof. apply (add_known_tweet_new [("1", JDict [])] "2" [("id_str", JStr "2")]). reflexivity. Defined.


Lemma collect_tweet_references_new_or_own_witness :
  collect_tweet_references sample_reply_tweet [] = Some [JStr "9"; JStr "10"]
  /\ forall i, In i [JStr "9"; JStr "10"] ->
     known_has [] i = Some false
     \/ exists t, unwrap_tweet sample_reply_tweet = JDict t /\ own_id t i.
Proof.
  split; [reflexivity|].
  apply (collect_tweet_references_new_or_own sample_reply_tweet [] [JStr "9"; JStr "10"]).
  reflexivity.
Defined.

Lemma collect_user_connections_from_tweet_grows_witness :
  collect_user_connections_from_tweet
    [("in_reply_to_user_id", JStr "7"); ("in_reply_to_screen_name", JStr "bob");
     ("entities", JDict [("user_mentions",
        JList [JDict [("id", JInt 8); ("screen_name", JStr "eve")];
               JDict [("id", JInt (-1)); ("screen_name", JStr "nobody")]])])]
    [("7", mkUserData "7" (JStr "robert"))]
  = Some [("7", mkUserData "7" (JStr "robert")); ("8", mkUserData "8" (JStr "eve"))]
  /\ exists added, [("7", mkUserData "7" (JStr "robert")); ("8", mkUserData "8" (JStr "eve"))]
       = ([("7", mkUserData "7" (JStr "robert"))] ++ added)%list
     /\ fresh_entries [("7", mkUserData "7" (JStr "robert"))] added
     /\ (NoDup (map fst [("7", mkUserData "7" (JStr "robert"))]) ->
         NoDup (map fst [("7", mkUserData "7" (JStr "robert")); ("8", mkUserData "8" (JStr "eve"))])).
Proof.
  split; [reflexivity|].
  apply (collect_user_connections_from_tweet_grows
    [("in_reply_to_user_id", JStr "7"); ("in_reply_to_screen_name", JStr "bob");
     ("entities", JDict [("user_mentions",
        JList [JDict [("id", JInt 8); ("screen_name", JStr "eve")];
               JDict [("id", JInt (-1)); ("screen_name", JStr "nobody")]])])]).
  reflexivity.
Defined.

Lemma collect_user_ids_from_direct_messages_split_witness :
  collect_user_ids_from_direct_messages (JList [sample_conversation "12-34"; sample_conversation "34-56"])
    = Some [JStr "12"; JStr "34"; JStr "56"]
  /\ exists user1_id user2_id, "34-56" = (user1_id ++ String "-" user2_id)%string
    /\ count_char "-" user1_id = O /\ count_char "-" user2_id = O
    /\ In (JStr user1_id) [JStr "12"; JStr "34"; JStr "56"]
    /\ In (JStr user2_id) [JStr "12"; JStr "34"; JStr "56"].
Proof.
  split; [reflexivity|].
  apply (collect_user_ids_from_direct_messages_split
           [sample_conversation "12-34"; sample_conversation "34-56"] [JStr "12"; JStr "34"; JStr "56"]
           eq_refl (sample_conversation "34-56")).
  - right. now left.
  - reflexivity.
Defined.

Lemma collect_user_ids_from_direct_messages_value_error_witness :
  collect_user_ids_from_direct_messages
    (JList [sample_conversation "12-34"; sample_conversation "12-34-56"]) = None
  /\ (collect_user_ids_from_direct_messages
        (JList [sample_conversation "12-34"; sample_conversation "12-34-56"]) <> None <->
      forall conv s, In conv [sample_conversation "12-34"; sample_conversation "12-34-56"] ->
        archive_conversation_id conv = Some s -> count_char "-" s = 1%nat).
Proof.
  split; [reflexivity|].
  apply collect_user_ids_from_direct_messages_value_error.
  intros conv [<-|[<-|[]]]; eexists; reflexivity.
Defined.

Lemma mentions_loop_invariants_witness :
  exists users', UserIdParser.mentions_loop sample_mentions (sample_users, O, O, O) = Some (users', 1%nat, 1%nat, 1%nat)
  /\ (1 + 1 + 1 = 0 + 0 + 0 + length sample_mentions)%nat
  /\ length users' = length sample_users + (1 - 0)
  /\ UserIdParser.users_get (JStr "2") users' = UserIdParser.users_get (JStr "2") sample_users.
Proof.
  eexists. split; [reflexivity|].
  destruct (proj2 UserIdParserFacts.mentions_loop_invariants sample_mentions sample_users O O O _ 1%nat 1%nat 1%nat eq_refl)
    as (C & _ & L & _ & G).
  split; [exact C|split; [exact L|]].
  apply G; [reflexivity|discriminate].
Defined.

Lemma add_user_metadata_to_egg_frame_witness :
  dict_get "full_text" (match add_user_metadata_to_egg [("user_id", JInt 42); ("full_text", JStr "hi")] [] [] "_x96"
                        with Some e => e | None => [] end) = Some (JStr "hi").
Proof.
  apply (proj2 (add_user_metadata_to_egg_frame [("user_id", JInt 42); ("full_text", JStr "hi")] [] [] "_x96"
           _ eq_refl)).
  cbn. intuition discriminate.
Defined.

(** Spellings [int] accepts and rejects: blanks around the literal, a sign,
    single underscores between digits. *)
Lemma py_int_spellings :
  py_int (JStr " 7") = Some 7%Z /\ py_int (JStr "+7") = Some 7%Z
  /\ py_int (JStr "7_0") = Some 70%Z /\ py_int (JStr (String "009" "-0_1 ")) = Some (-1)%Z
  /\ py_int (JStr "7__0") = None /\ py_int (JStr "_7") = None /\ py_int (JStr "7_") = None
  /\ py_int (JStr "- 7") = None /\ py_int (JStr "+") = None /\ py_int (JStr " ") = None.
Proof. repeat split; vm_compute; reflexivity. Qed.
